(** * NASCON event management: registration, payment reconciliation and
      accommodation allocation

    A shallow embedding of the parts of the repository that the engine's
    properties talk about:

    - the schema of [NASCON.sql] (tables [Registrations], [Payments],
      [Accommodations], [AccommodationRequests], [Teams], [TeamMembers],
      [Events]), its triggers [validate_payment_relation_on_insert],
      [validate_payment_relation_on_update], [ConfirmRegistrationOnPayment]
      and its stored procedure [AssignAccommodation];
    - the Express route handlers for event registration ([POST /registration],
      [POST /registration/api/registrations]), for the team roster
      ([routes/teams.js]) and for registration payments
      ([routes/payments.js]).

    Conventions.  A table with a primary key is a finite map from the key
    to the row ([gmap]); the table [Accommodations] is additionally kept as
    a list, because the procedure orders it and takes the first row.  A
    nullable column is an [option].  [DATE] and [DATETIME] values are
    integers (a day or second count), [DECIMAL] amounts are integers in the
    smallest unit.  The [CreatedAt]/[UpdatedAt] bookkeeping columns are left
    out.  A statement that raises (a [SIGNAL] in a trigger, a violated
    constraint) leaves the database as it was.  The foreign keys of
    [Registrations] and [TeamMembers] to [Users], [Events] and [Teams] are
    enforced where a handler writes these tables; the statements on
    [Payments] are taken with their triggers and their check constraint.  Each statement runs on its own, one after the other: the
    handlers open no transaction, and interleavings of concurrent requests
    are not modelled. *)

From Stdlib Require Import ZArith Bool Lia Sorting.Permutation Sorting.Sorted.
From stdpp Require Import gmap list fin_maps strings pretty.

Local Open Scope Z_scope.

(** ** Results of SQL statements *)

Inductive sql_result (A : Type) : Type :=
| SqlOk (a : A)
| SqlError (sqlstate : string) (message : string).
Arguments SqlOk {A} a.
Arguments SqlError {A} sqlstate message.

#[global] Instance sql_ret : MRet sql_result := λ A a, SqlOk a.
#[global] Instance sql_bind : MBind sql_result := λ A B k r,
  match r with
  | SqlOk a => k a
  | SqlError st msg => SqlError st msg
  end.

(** ** Schema *)

Module Accommodations.
Inductive availability := Available | Unavailable | Maintenance.
#[global] Instance availability_eq_dec : EqDecision availability.
Proof. solve_decision. Defined.

Record row := {
  AccommodationID : Z;
  Name : string;
  Capacity : Z;
  Availability : availability;
}.
End Accommodations.

Module AccommodationRequests.
Inductive status := Pending | Approved | Rejected | Cancelled | Waitlisted.
#[global] Instance status_eq_dec : EqDecision status.
Proof. solve_decision. Defined.

Definition status_name (s : status) : string :=
  match s with
  | Pending => "Pending" | Approved => "Approved" | Rejected => "Rejected"
  | Cancelled => "Cancelled" | Waitlisted => "Waitlisted"
  end.

(** The key [RequestID] is the key of the table's map. *)
Record row := {
  UserID : Z;
  CheckInDate : Z;
  CheckOutDate : Z;
  NumberOfPeople : Z;
  Status : status;
  AssignedAccommodationID : option Z;
  AssignmentNotes : option string;
}.
End AccommodationRequests.

(** ** The stored procedure [AssignAccommodation] *)

Module Acc := Accommodations.
Module Req := AccommodationRequests.

Record lodging := {
  tblAccommodations : list Acc.row;
  tblAccommodationRequests : gmap Z Req.row;
}.

(** The body of the [NOT EXISTS] subquery, for one row [ar] of
    [AccommodationRequests] with key [k]:
    [ar.AssignedAccommodationID = a.AccommodationID AND ar.Status = 'Approved'
     AND ar.RequestID != p_RequestID AND ar.CheckInDate < v_CheckOutDate
     AND ar.CheckOutDate > v_CheckInDate].  A [NULL] assignment compares
    unknown, so such a row is not selected. *)
Definition blocks (a : Z) (p_RequestID v_CheckInDate v_CheckOutDate : Z)
    (k : Z) (ar : Req.row) : bool :=
  bool_decide (Req.AssignedAccommodationID ar = Some a)
  && bool_decide (Req.Status ar = Req.Approved)
  && bool_decide (k ≠ p_RequestID)
  && (Req.CheckInDate ar <? v_CheckOutDate)
  && (Req.CheckOutDate ar >? v_CheckInDate).

Definition exists_blocking (reqs : gmap Z Req.row)
    (a p_RequestID v_CheckInDate v_CheckOutDate : Z) : bool :=
  existsb (λ kr, blocks a p_RequestID v_CheckInDate v_CheckOutDate kr.1 kr.2)
          (map_to_list reqs).

(** The [WHERE] clause of the candidate query. *)
Definition candidate (reqs : gmap Z Req.row)
    (p_RequestID v_CheckInDate v_CheckOutDate v_NumberOfPeople : Z)
    (a : Acc.row) : bool :=
  (Acc.Capacity a >=? v_NumberOfPeople)
  && bool_decide (Acc.Availability a ≠ Acc.Unavailable)
  && negb (exists_blocking reqs (Acc.AccommodationID a)
             p_RequestID v_CheckInDate v_CheckOutDate).

(** [ORDER BY a.Capacity ASC]: the statement names no second key, so rows of
    equal capacity stay in the order in which the table delivers them (a
    stable insertion sort over the table's row order). *)
Fixpoint insert_by_capacity (a : Acc.row) (l : list Acc.row) : list Acc.row :=
  match l with
  | [] => [a]
  | b :: l' =>
      if Acc.Capacity a <=? Acc.Capacity b then a :: b :: l'
      else b :: insert_by_capacity a l'
  end.

Definition order_by_capacity (l : list Acc.row) : list Acc.row :=
  foldr insert_by_capacity [] l.

(** [SELECT ... WHERE ... ORDER BY a.Capacity ASC LIMIT 1]: the selected row. *)
Definition select_candidate (db : lodging)
    (p_RequestID v_CheckInDate v_CheckOutDate v_NumberOfPeople : Z)
    : option Acc.row :=
  head (order_by_capacity
          (List.filter
             (candidate (tblAccommodationRequests db)
                p_RequestID v_CheckInDate v_CheckOutDate v_NumberOfPeople)
             (tblAccommodations db))).

Record assign_out := {
  out_db : lodging;
  p_Success : bool;
  p_Message : string;
}.

Definition set_requests (db : lodging) (reqs : gmap Z Req.row) : lodging :=
  {| tblAccommodations := tblAccommodations db;
     tblAccommodationRequests := reqs |}.

Definition approve (r : Req.row) (a : Z) : Req.row :=
  {| Req.UserID := Req.UserID r;
     Req.CheckInDate := Req.CheckInDate r;
     Req.CheckOutDate := Req.CheckOutDate r;
     Req.NumberOfPeople := Req.NumberOfPeople r;
     Req.Status := Req.Approved;
     Req.AssignedAccommodationID := Some a;
     Req.AssignmentNotes :=
       Some ("Automatically assigned to accommodation ID: " +:+ pretty a
             +:+ " by procedure.") |}.

Definition reject (r : Req.row) : Req.row :=
  {| Req.UserID := Req.UserID r;
     Req.CheckInDate := Req.CheckInDate r;
     Req.CheckOutDate := Req.CheckOutDate r;
     Req.NumberOfPeople := Req.NumberOfPeople r;
     Req.Status := Req.Rejected;
     Req.AssignedAccommodationID := Req.AssignedAccommodationID r;
     Req.AssignmentNotes :=
       Some "No suitable accommodation available matching capacity and date availability." |}.

Definition AssignAccommodation (p_RequestID : Z) (db : lodging) : assign_out :=
  match tblAccommodationRequests db !! p_RequestID with
  | None =>
      {| out_db := db; p_Success := false;
         p_Message := "Error: Accommodation request ID " +:+ pretty p_RequestID
                      +:+ " not found." |}
  | Some r =>
      if bool_decide (Req.Status r ≠ Req.Pending) then
        {| out_db := db; p_Success := false;
           p_Message := "Error: Request ID " +:+ pretty p_RequestID
                        +:+ " is already processed (Status: "
                        +:+ Req.status_name (Req.Status r) +:+ ")." |}
      else
        match select_candidate db p_RequestID (Req.CheckInDate r)
                (Req.CheckOutDate r) (Req.NumberOfPeople r) with
        | Some a =>
            let v := Acc.AccommodationID a in
            {| out_db := set_requests db
                 (<[p_RequestID := approve r v]> (tblAccommodationRequests db));
               p_Success := true;
               p_Message := "Success: Accommodation ID " +:+ pretty v
                            +:+ " assigned to request ID " +:+ pretty p_RequestID
                            +:+ "." |}
        | None =>
            {| out_db := set_requests db
                 (<[p_RequestID := reject r]> (tblAccommodationRequests db));
               p_Success := false;
               p_Message := "Failure: No suitable accommodation found for request ID "
                            +:+ pretty p_RequestID +:+ "." |}
        end
  end.

(** Half-open date ranges [[a,b)] and [[c,d)] overlap. *)
Definition overlap (a b c d : Z) : Prop := a < d ∧ c < b.

(** No two distinct approved requests of one accommodation overlap. *)
Definition no_double_booking (reqs : gmap Z Req.row) : Prop :=
  ∀ i j r1 r2 acc,
    reqs !! i = Some r1 → reqs !! j = Some r2 → i ≠ j →
    Req.Status r1 = Req.Approved → Req.Status r2 = Req.Approved →
    Req.AssignedAccommodationID r1 = Some acc →
    Req.AssignedAccommodationID r2 = Some acc →
    ¬ overlap (Req.CheckInDate r1) (Req.CheckOutDate r1)
              (Req.CheckInDate r2) (Req.CheckOutDate r2).

(** The accommodation a request is approved into, if any. *)
Definition approved_into (reqs : gmap Z Req.row) (k : Z) : option Z :=
  r ← reqs !! k;
  if bool_decide (Req.Status r = Req.Approved)
  then Req.AssignedAccommodationID r else None.

(** Whenever the call approves the pending request [p] into an accommodation,
    no other approved request of that accommodation overlaps its range. *)
Definition approves_without_overlap (db : lodging) (p : Z) : Prop :=
  let reqs' := tblAccommodationRequests (out_db (AssignAccommodation p db)) in
  ∀ r acc,
    tblAccommodationRequests db !! p = Some r →
    Req.Status r = Req.Pending →
    approved_into reqs' p = Some acc →
    ∀ j r2,
      j ≠ p →
      reqs' !! j = Some r2 →
      Req.Status r2 = Req.Approved →
      Req.AssignedAccommodationID r2 = Some acc →
      ¬ overlap (Req.CheckInDate r) (Req.CheckOutDate r)
                (Req.CheckInDate r2) (Req.CheckOutDate r2).

(** An executable check of [no_double_booking]. *)
Definition double_booked (i : Z) (r1 : Req.row) (j : Z) (r2 : Req.row) : bool :=
  bool_decide (i ≠ j)
  && bool_decide (Req.Status r1 = Req.Approved)
  && bool_decide (Req.Status r2 = Req.Approved)
  && bool_decide (is_Some (Req.AssignedAccommodationID r1))
  && bool_decide (Req.AssignedAccommodationID r1 = Req.AssignedAccommodationID r2)
  && (Req.CheckInDate r1 <? Req.CheckOutDate r2)
  && (Req.CheckInDate r2 <? Req.CheckOutDate r1).

Definition no_double_booking_b (reqs : gmap Z Req.row) : bool :=
  forallb (λ x, forallb (λ y, negb (double_booked x.1 x.2 y.1 y.2))
                        (map_to_list reqs))
          (map_to_list reqs).

(** *** Sample data, after the seed rows of [NASCON.sql] and scenario B of the
    specification; dates are days of May 2025 *)

Definition guest_house : Acc.row :=
  {| Acc.AccommodationID := 1; Acc.Name := "Guest House";
     Acc.Capacity := 2; Acc.Availability := Acc.Available |}.

Definition hostel_block : Acc.row :=
  {| Acc.AccommodationID := 2; Acc.Name := "Hostel Block";
     Acc.Capacity := 4; Acc.Availability := Acc.Available |}.

Definition annex : Acc.row :=
  {| Acc.AccommodationID := 3; Acc.Name := "Annex";
     Acc.Capacity := 2; Acc.Availability := Acc.Available |}.

Definition request_bob : Req.row :=
  {| Req.UserID := 2; Req.CheckInDate := 15; Req.CheckOutDate := 18;
     Req.NumberOfPeople := 2; Req.Status := Req.Approved;
     Req.AssignedAccommodationID := Some 1;
     Req.AssignmentNotes := Some "Assigned to Guest House room 101" |}.

Definition request_alice : Req.row :=
  {| Req.UserID := 1; Req.CheckInDate := 16; Req.CheckOutDate := 17;
     Req.NumberOfPeople := 1; Req.Status := Req.Pending;
     Req.AssignedAccommodationID := None;
     Req.AssignmentNotes := None |}.

Definition sample_requests : gmap Z Req.row :=
  <[1 := request_bob]> (<[2 := request_alice]> ∅).

Definition guest_house_only : lodging :=
  {| tblAccommodations := [guest_house];
     tblAccommodationRequests := sample_requests |}.

Definition guest_house_and_hostel : lodging :=
  {| tblAccommodations := [guest_house; hostel_block];
     tblAccommodationRequests := sample_requests |}.

Definition fresh_request : gmap Z Req.row :=
  <[7 := request_alice]> ∅.

(** Two orders of the same two rows of equal capacity. *)
Definition guest_house_first : lodging :=
  {| tblAccommodations := [guest_house; annex];
     tblAccommodationRequests := fresh_request |}.

Definition annex_first : lodging :=
  {| tblAccommodations := [annex; guest_house];
     tblAccommodationRequests := fresh_request |}.

Definition cap_le (a b : Acc.row) : Prop := Acc.Capacity a ≤ Acc.Capacity b.

(** What two runs of the candidate query over two row orders [accs] and
    [accs'] of one snapshot have in common. *)
Definition selection_agrees (accs accs' : list Acc.row) (reqs : gmap Z Req.row)
    (p cin cout n : Z) : Prop :=
  match select_candidate {| tblAccommodations := accs;
                            tblAccommodationRequests := reqs |} p cin cout n,
        select_candidate {| tblAccommodations := accs';
                            tblAccommodationRequests := reqs |} p cin cout n
  with
  | Some a, Some a' =>
      a ∈ accs ∧ a' ∈ accs ∧
      candidate reqs p cin cout n a = true ∧
      candidate reqs p cin cout n a' = true ∧
      (∀ b, b ∈ accs → candidate reqs p cin cout n b = true →
            Acc.Capacity a ≤ Acc.Capacity b) ∧
      Acc.Capacity a = Acc.Capacity a' ∧
      ((∀ b, b ∈ accs → candidate reqs p cin cout n b = true →
             Acc.Capacity b = Acc.Capacity a → b = a) → a' = a)
  | None, None => ∀ b, b ∈ accs → candidate reqs p cin cout n b = false
  | _, _ => False
  end.

(** The accommodation that the procedure assigns to request [p], if any. *)
Definition assigned_by (db : lodging) (p : Z) : option Z :=
  approved_into (tblAccommodationRequests (out_db (AssignAccommodation p db))) p.

(** What two runs of [AssignAccommodation] on a pending request [p] have in
    common, over two row orders [accs] and [accs'] of one snapshot: each
    assigns the row its candidate query selects, and the two selections
    agree as [selection_agrees] says. *)
Definition allocation_agrees (accs accs' : list Acc.row) (reqs : gmap Z Req.row)
    (p : Z) : Prop :=
  ∀ r,
    reqs !! p = Some r → Req.Status r = Req.Pending →
    let db := {| tblAccommodations := accs; tblAccommodationRequests := reqs |} in
    let db' := {| tblAccommodations := accs'; tblAccommodationRequests := reqs |} in
    assigned_by db p
      = Acc.AccommodationID <$> select_candidate db p (Req.CheckInDate r)
                                  (Req.CheckOutDate r) (Req.NumberOfPeople r)
    ∧ assigned_by db' p
      = Acc.AccommodationID <$> select_candidate db' p (Req.CheckInDate r)
                                  (Req.CheckOutDate r) (Req.NumberOfPeople r)
    ∧ (is_Some (assigned_by db p) ↔ p_Success (AssignAccommodation p db) = true)
    ∧ selection_agrees accs accs' reqs p (Req.CheckInDate r)
        (Req.CheckOutDate r) (Req.NumberOfPeople r).

(** ** Schema of the registration and payment tables *)

Module Events.
Inductive event_type := Individual | Team | Both.
Inductive status := Draft | Published | Ongoing | Completed | Cancelled.
#[global] Instance status_eq_dec : EqDecision status.
Proof. solve_decision. Defined.

Record row := {
  Name : string;
  Reg_Fee : Z;
  Max_Participants : option Z;
  EventType : event_type;
  RegistrationDeadline : option Z;
  Status : status;
}.
End Events.

Module Registrations.
Inductive status := pending | confirmed | cancelled | waitlisted | checked_in.
#[global] Instance status_eq_dec : EqDecision status.
Proof. solve_decision. Defined.

Inductive payment_status := pay_pending | paid | failed | refunded | not_required.
#[global] Instance payment_status_eq_dec : EqDecision payment_status.
Proof. solve_decision. Defined.

(** The key [RegistrationID] is the key of the table's map. *)
Record row := {
  UserID : Z;
  EventID : Z;
  TeamID : option Z;
  RegistrationDate : Z;
  Status : status;
  PaymentStatus : payment_status;
  SpecialRequirements : option string;
}.
End Registrations.

Module Payments.
Inductive method :=
  credit_card | debit_card | bank_transfer | cash | check | online_gateway | other.
Inductive status := pending | completed | failed | refunded.
#[global] Instance status_eq_dec : EqDecision status.
Proof. solve_decision. Defined.

(** The key [PaymentID] is the key of the table's map. *)
Record row := {
  Amount : Z;
  PaymentMethod : method;
  Status : status;
  Description : option string;
  PayerUserID : option Z;
  RelatedRegistrationID : option Z;
  RelatedContractID : option Z;
}.
End Payments.

Module Teams.
Inductive status := active | inactive | disqualified.

(** The key [TeamID] is the key of the table's map. *)
Record row := {
  TeamName : string;
  EventID : Z;
  LeaderID : Z;
  Status : status;
}.
End Teams.

Module TeamMembers.
Inductive status := active | inactive | pending_invite.
#[global] Instance status_eq_dec : EqDecision status.
Proof. solve_decision. Defined.

(** [UNIQUE KEY unique_user_team (TeamID, UserID)]: the table is a map from
    that pair to the rest of the row. *)
Record row := {
  Role : string;
  Status : status;
}.
End TeamMembers.

Module Reg := Registrations.
Module Pay := Payments.
Module TM := TeamMembers.

Record database := {
  tblUsers : gset Z;
  tblEvents : gmap Z Events.row;
  tblTeams : gmap Z Teams.row;
  tblTeamMembers : gmap (Z * Z) TM.row;
  tblRegistrations : gmap Z Reg.row;
  tblPayments : gmap Z Pay.row;
}.

Definition with_Registrations (db : database) (m : gmap Z Reg.row) : database :=
  {| tblUsers := tblUsers db; tblEvents := tblEvents db; tblTeams := tblTeams db;
     tblTeamMembers := tblTeamMembers db; tblRegistrations := m;
     tblPayments := tblPayments db |}.

Definition with_Payments (db : database) (m : gmap Z Pay.row) : database :=
  {| tblUsers := tblUsers db; tblEvents := tblEvents db; tblTeams := tblTeams db;
     tblTeamMembers := tblTeamMembers db; tblRegistrations := tblRegistrations db;
     tblPayments := m |}.

Definition with_TeamMembers (db : database) (m : gmap (Z * Z) TM.row) : database :=
  {| tblUsers := tblUsers db; tblEvents := tblEvents db; tblTeams := tblTeams db;
     tblTeamMembers := m; tblRegistrations := tblRegistrations db;
     tblPayments := tblPayments db |}.

(** [AUTO_INCREMENT]: keys start at 1 and the next key lies above every key
    of the table. *)
Definition auto_increment {A} (m : gmap Z A) : Z :=
  map_fold (λ k _ next, Z.max (k + 1) next) 1 m.

(** ** Triggers on [Payments] *)

Definition validate_payment_relation_on_insert (NEW : Pay.row) : sql_result unit :=
  if bool_decide (Pay.RelatedRegistrationID NEW = None)
     && bool_decide (Pay.RelatedContractID NEW = None)
  then SqlError "45000"
         "Payment must be related to either a Registration or a Sponsorship Contract."
  else if bool_decide (Pay.RelatedRegistrationID NEW ≠ None)
          && bool_decide (Pay.RelatedContractID NEW ≠ None)
  then SqlError "45000"
         "Payment cannot be related to both a Registration and a Sponsorship Contract simultaneously."
  else SqlOk ().

Definition validate_payment_relation_on_update (NEW : Pay.row) : sql_result unit :=
  if bool_decide (Pay.RelatedRegistrationID NEW = None)
     && bool_decide (Pay.RelatedContractID NEW = None)
  then SqlError "45000"
         "Payment must be related to either a Registration or a Sponsorship Contract."
  else if bool_decide (Pay.RelatedRegistrationID NEW ≠ None)
          && bool_decide (Pay.RelatedContractID NEW ≠ None)
  then SqlError "45000"
         "Payment cannot be related to both a Registration and a Sponsorship Contract simultaneously."
  else SqlOk ().

(** [CHECK (Amount > 0)]. *)
Definition check_payment_amount (NEW : Pay.row) : sql_result unit :=
  if Pay.Amount NEW >? 0 then SqlOk ()
  else SqlError "HY000" "Check constraint 'payments_chk_1' is violated.".

(** The [SET] list of the trigger's [UPDATE Registrations]. *)
Definition confirm_paid (r : Reg.row) : Reg.row :=
  {| Reg.UserID := Reg.UserID r; Reg.EventID := Reg.EventID r;
     Reg.TeamID := Reg.TeamID r; Reg.RegistrationDate := Reg.RegistrationDate r;
     Reg.Status := Reg.confirmed; Reg.PaymentStatus := Reg.paid;
     Reg.SpecialRequirements := Reg.SpecialRequirements r |}.

(** [UPDATE Registrations SET Status = 'confirmed', PaymentStatus = 'paid'
     WHERE RegistrationID = rid AND Status IN ('pending', 'waitlisted')]. *)
Definition confirm_registration (rid : Z) (regs : gmap Z Reg.row) : gmap Z Reg.row :=
  match regs !! rid with
  | Some r =>
      if bool_decide (Reg.Status r = Reg.pending)
         || bool_decide (Reg.Status r = Reg.waitlisted)
      then <[rid := confirm_paid r]> regs
      else regs
  | None => regs
  end.

(** The condition of the trigger's [IF]. *)
Definition confirmation_fires (OLD NEW : Pay.row) : bool :=
  bool_decide (Pay.Status OLD ≠ Pay.completed)
  && bool_decide (Pay.Status NEW = Pay.completed)
  && bool_decide (Pay.RelatedRegistrationID NEW ≠ None).

(** [AFTER UPDATE ON Payments FOR EACH ROW]. *)
Definition ConfirmRegistrationOnPayment (OLD NEW : Pay.row) (db : database) : database :=
  if confirmation_fires OLD NEW then
    match Pay.RelatedRegistrationID NEW with
    | Some rid => with_Registrations db (confirm_registration rid (tblRegistrations db))
    | None => db
    end
  else db.

(** ** Statements on [Payments] *)

(** [INSERT INTO Payments ...] of one row: the [BEFORE INSERT] trigger, the
    check constraint, then the row is stored under a new key, which is
    returned ([insertId]).  No trigger is declared [AFTER INSERT]. *)
Definition insert_payment (NEW : Pay.row) (db : database) : sql_result (database * Z) :=
  _ ← validate_payment_relation_on_insert NEW;
  _ ← check_payment_amount NEW;
  let id := auto_increment (tblPayments db) in
  SqlOk (with_Payments db (<[id := NEW]> (tblPayments db)), id).

(** [UPDATE Payments SET ... WHERE PaymentID = pid]; [set] is the effect of
    the [SET] list on the columns of the old row.  With no such row the
    statement succeeds and changes nothing. *)
Definition update_payment (pid : Z) (set : Pay.row → Pay.row) (db : database)
    : sql_result database :=
  match tblPayments db !! pid with
  | None => SqlOk db
  | Some OLD =>
      let NEW := set OLD in
      _ ← validate_payment_relation_on_update NEW;
      _ ← check_payment_amount NEW;
      SqlOk (ConfirmRegistrationOnPayment OLD NEW
               (with_Payments db (<[pid := NEW]> (tblPayments db))))
  end.

(** [SET Status = 'completed']. *)
Definition set_completed (p : Pay.row) : Pay.row :=
  {| Pay.Amount := Pay.Amount p; Pay.PaymentMethod := Pay.PaymentMethod p;
     Pay.Status := Pay.completed; Pay.Description := Pay.Description p;
     Pay.PayerUserID := Pay.PayerUserID p;
     Pay.RelatedRegistrationID := Pay.RelatedRegistrationID p;
     Pay.RelatedContractID := Pay.RelatedContractID p |}.

(** Completing a payment, as the seed script does it:
    [UPDATE Payments SET Status = 'completed' WHERE PaymentID = pid]. *)
Definition completePayment (pid : Z) (db : database) : sql_result database :=
  update_payment pid set_completed db.

(** [n] completions of the same payment in a row; a raising statement stops
    the sequence. *)
Fixpoint completePayment_times (n : nat) (pid : Z) (db : database) : sql_result database :=
  match n with
  | O => SqlOk db
  | S n' => db' ← completePayment pid db; completePayment_times n' pid db'
  end.

(** Exactly one of the two targets is set. *)
Definition one_target (p : Pay.row) : Prop :=
  (Pay.RelatedRegistrationID p ≠ None ∧ Pay.RelatedContractID p = None)
  ∨ (Pay.RelatedRegistrationID p = None ∧ Pay.RelatedContractID p ≠ None).

#[global] Instance one_target_dec p : Decision (one_target p).
Proof. unfold one_target. apply _. Defined.

Definition sql_rejected {A} (r : sql_result A) : Prop :=
  match r with SqlOk _ => False | SqlError _ _ => True end.

(** The database after a statement: a statement that raises changes nothing. *)
Definition after_insert_payment (NEW : Pay.row) (db : database) : database :=
  match insert_payment NEW db with
  | SqlOk (db', _) => db'
  | SqlError _ _ => db
  end.

Definition after_update_payment (pid : Z) (set : Pay.row → Pay.row) (db : database)
    : database :=
  match update_payment pid set db with
  | SqlOk db' => db'
  | SqlError _ _ => db
  end.

(** The states of the database reached from an empty [Payments] table by
    attempted inserts and updates of payments, accepted or rejected. *)
Inductive payments_reachable : database → Prop :=
| reach_empty db : tblPayments db = ∅ → payments_reachable db
| reach_insert db NEW :
    payments_reachable db →
    payments_reachable (after_insert_payment NEW db)
| reach_update db pid set :
    payments_reachable db →
    payments_reachable (after_update_payment pid set db).

(** What the two validation triggers guarantee in a state [db]. *)
Definition rejects_bad_targets (db : database) : Prop :=
  (∀ NEW, ¬ one_target NEW →
     sql_rejected (insert_payment NEW db) ∧ after_insert_payment NEW db = db)
  ∧ (∀ pid set OLD,
       tblPayments db !! pid = Some OLD → ¬ one_target (set OLD) →
       sql_rejected (update_payment pid set db)
       ∧ after_update_payment pid set db = db
       ∧ tblPayments (after_update_payment pid set db) !! pid = Some OLD
       ∧ one_target OLD).

(** *** Sample data *)

Definition registration_alice : Reg.row :=
  {| Reg.UserID := 1; Reg.EventID := 1; Reg.TeamID := None;
     Reg.RegistrationDate := 0; Reg.Status := Reg.pending;
     Reg.PaymentStatus := Reg.pay_pending; Reg.SpecialRequirements := None |}.

Definition registration_bob_cancelled : Reg.row :=
  {| Reg.UserID := 2; Reg.EventID := 1; Reg.TeamID := None;
     Reg.RegistrationDate := 0; Reg.Status := Reg.cancelled;
     Reg.PaymentStatus := Reg.pay_pending; Reg.SpecialRequirements := None |}.

Definition payment_alice : Pay.row :=
  {| Pay.Amount := 500; Pay.PaymentMethod := Pay.online_gateway;
     Pay.Status := Pay.pending;
     Pay.Description := Some "Reg Fee Prog Contest - User Alice";
     Pay.PayerUserID := Some 1;
     Pay.RelatedRegistrationID := Some 1; Pay.RelatedContractID := None |}.

Definition programming_contest : Events.row :=
  {| Events.Name := "NASCON Programming Contest"; Events.Reg_Fee := 500;
     Events.Max_Participants := Some 100; Events.EventType := Events.Team;
     Events.RegistrationDeadline := Some 100; Events.Status := Events.Published |}.

Definition music_night : Events.row :=
  {| Events.Name := "Cultural Music Night"; Events.Reg_Fee := 0;
     Events.Max_Participants := Some 500; Events.EventType := Events.Individual;
     Events.RegistrationDeadline := None; Events.Status := Events.Published |}.

Definition no_payments : database :=
  {| tblUsers := {[1; 2; 3; 4]};
     tblEvents := <[1 := programming_contest]> (<[2 := music_night]> ∅);
     tblTeams := ∅; tblTeamMembers := ∅;
     tblRegistrations :=
       <[1 := registration_alice]> (<[2 := registration_bob_cancelled]> ∅);
     tblPayments := ∅ |}.

(** Scenario C: a pending payment of 500 against a pending registration. *)
Definition scenario_C : database := after_insert_payment payment_alice no_payments.

(** The set list of a statement that retargets a payment to nothing. *)
Definition clear_targets (p : Pay.row) : Pay.row :=
  {| Pay.Amount := Pay.Amount p; Pay.PaymentMethod := Pay.PaymentMethod p;
     Pay.Status := Pay.Status p; Pay.Description := Pay.Description p;
     Pay.PayerUserID := Pay.PayerUserID p;
     Pay.RelatedRegistrationID := None; Pay.RelatedContractID := None |}.

(** Row [r'] is row [r] advanced to [confirmed] and [paid]: these two
    columns hold the new values and every other column is as in [r]. *)
Definition advanced_to_confirmed_paid (r r' : Reg.row) : Prop :=
  Reg.Status r' = Reg.confirmed
  ∧ Reg.PaymentStatus r' = Reg.paid
  ∧ Reg.UserID r' = Reg.UserID r
  ∧ Reg.EventID r' = Reg.EventID r
  ∧ Reg.TeamID r' = Reg.TeamID r
  ∧ Reg.RegistrationDate r' = Reg.RegistrationDate r
  ∧ Reg.SpecialRequirements r' = Reg.SpecialRequirements r.

(** What a completing update of payment [pid] does to the registration row
    [r] stored under the payment's target [rid]: the row afterwards is [r]
    advanced to [confirmed] and [paid] when [r] is [pending] or
    [waitlisted], and is [r] itself otherwise, so that it has been advanced
    by the update exactly in the first case. *)
Definition completion_effect (db db' : database) (pid : Z) (NEW : Pay.row)
    (rid : Z) (r : Reg.row) : Prop :=
  tblPayments db' = <[pid := NEW]> (tblPayments db)
  ∧ (Reg.Status r = Reg.pending ∨ Reg.Status r = Reg.waitlisted →
       ∃ r', tblRegistrations db' !! rid = Some r'
             ∧ advanced_to_confirmed_paid r r')
  ∧ (¬ (Reg.Status r = Reg.pending ∨ Reg.Status r = Reg.waitlisted) →
       tblRegistrations db' !! rid = Some r)
  ∧ (∀ k, k ≠ rid → tblRegistrations db' !! k = tblRegistrations db !! k).

(** The cancelled registration of the sample data, with a pending payment. *)
Definition payment_bob : Pay.row :=
  {| Pay.Amount := 500; Pay.PaymentMethod := Pay.cash;
     Pay.Status := Pay.pending; Pay.Description := None;
     Pay.PayerUserID := Some 2;
     Pay.RelatedRegistrationID := Some 2; Pay.RelatedContractID := None |}.

Definition scenario_cancelled : database := after_insert_payment payment_bob scenario_C.

(** ** Route handlers *)

(** What a handler answers: [res.status(c).json({error|message: m})],
    [res.status(c).render('error', {message: m})], [res.redirect(url)], or
    the error is handed to [next]. *)
Inductive response :=
| Json (status : Z) (message : string)
| Render (status : Z) (message : string)
| Redirect (location : string)
| Next (sqlstate message : string).

(** A number read from the request; [None] is [undefined].  [!v] holds for
    [undefined] and for [0]. *)
Definition falsy (v : option Z) : bool :=
  match v with
  | None => true
  | Some n => bool_decide (n = 0)
  end.

(** *** Event registration ([routes/registration.js]) *)

(** [SELECT ... FROM Registrations WHERE EventID = ? AND UserID = ?]. *)
Definition registrations_of (eventId userId : Z) (regs : gmap Z Reg.row)
    : gmap Z Reg.row :=
  filter (λ kr, Reg.EventID kr.2 = eventId ∧ Reg.UserID kr.2 = userId) regs.

(** [INSERT INTO Registrations ...] of one row, under
    [UNIQUE KEY unique_user_event_registration (UserID, EventID)] and the
    foreign keys on [UserID] and [EventID] (the handlers write no
    [TeamID]). *)
Definition insert_registration (NEW : Reg.row) (db : database)
    : sql_result (database * Z) :=
  if bool_decide (0 < size (registrations_of (Reg.EventID NEW) (Reg.UserID NEW)
                              (tblRegistrations db)))%nat
  then SqlError "23000" "Duplicate entry for key 'unique_user_event_registration'"
  else if bool_decide (Reg.UserID NEW ∉ tblUsers db)
          || bool_decide (tblEvents db !! Reg.EventID NEW = None)
  then SqlError "23000"
         "Cannot add or update a child row: a foreign key constraint fails"
  else
    let id := auto_increment (tblRegistrations db) in
    SqlOk (with_Registrations db (<[id := NEW]> (tblRegistrations db)), id).

(** [specialRequirements || null]. *)
Definition or_null (s : option string) : option string :=
  match s with
  | Some "" => None
  | _ => s
  end.

(** [POST /registration], the user-facing form.  [now] is [NOW()].
    [session_user] is [req.session.user.UserID]; it is [None] when
    [req.session.user] is [undefined], as it is while nothing assigns it
    (no file of the repository does; the login stores the user in
    [req.user]): reading the property then throws, and the handler answers
    500 before its first query.  An [undefined] event id makes the first
    query throw. *)
Definition post_registration (now : Z) (session_user eventId : option Z)
    (specialRequirements : option string) (db : database) : database * response :=
  match session_user, eventId with
  | None, _ | _, None => (db, Render 500 "Registration failed")
  | Some session_UserID, Some eventId =>
      match tblEvents db !! eventId with
      | None => (db, Render 404 "Event not found")
      | Some _ =>
          if bool_decide (0 < size (registrations_of eventId session_UserID
                                      (tblRegistrations db)))%nat
          then (db, Render 400 "Already registered")
          else
            match insert_registration
                    {| Reg.UserID := session_UserID; Reg.EventID := eventId;
                       Reg.TeamID := None; Reg.RegistrationDate := now;
                       Reg.Status := Reg.pending;
                       Reg.PaymentStatus := Reg.pay_pending;
                       Reg.SpecialRequirements := or_null specialRequirements |}
                    db with
            | SqlOk (db', insertId) =>
                (db', Redirect ("/registration/success?id=" +:+ pretty insertId))
            | SqlError _ _ => (db, Render 500 "Registration failed")
            end
      end
  end.

(** [POST /registration/api/registrations].  The statement names
    [PaymentStatus] only (['Pending'], which the enumeration reads as
    [pending]); [Status] and [RegistrationDate] take their defaults. *)
Definition post_api_registrations (now : Z) (userId eventId : option Z)
    (db : database) : database * response :=
  match userId, eventId with
  | Some u, Some e =>
      if falsy userId || falsy eventId then (db, Json 400 "Missing required fields")
      else if bool_decide (u ∉ tblUsers db) then (db, Json 404 "User not found")
      else
        match tblEvents db !! e with
        | None => (db, Json 404 "Event not found")
        | Some _ =>
            if bool_decide (0 < size (registrations_of e u (tblRegistrations db)))%nat
            then (db, Json 400 "Already registered")
            else
              match insert_registration
                      {| Reg.UserID := u; Reg.EventID := e;
                         Reg.TeamID := None; Reg.RegistrationDate := now;
                         Reg.Status := Reg.pending;
                         Reg.PaymentStatus := Reg.pay_pending;
                         Reg.SpecialRequirements := None |}
                      db with
              | SqlOk (db', _) => (db', Json 201 "Registration successful")
              | SqlError _ _ => (db, Json 500 "Server error")
              end
        end
  | _, _ => (db, Json 400 "Missing required fields")
  end.

Inductive registration_call :=
| CallForm (now : Z) (session_user eventId : option Z)
           (specialRequirements : option string)
| CallApi (now : Z) (userId eventId : option Z).

Definition run_registration_call (db : database) (c : registration_call) : database :=
  match c with
  | CallForm now u e s => (post_registration now u e s db).1
  | CallApi now u e => (post_api_registrations now u e db).1
  end.

Definition run_registration_calls (calls : list registration_call) (db : database)
    : database :=
  foldl run_registration_call db calls.

(** At most one registration row for each pair of a user and an event. *)
Definition one_registration_per_user_event (regs : gmap Z Reg.row) : Prop :=
  ∀ i j r1 r2,
    regs !! i = Some r1 → regs !! j = Some r2 →
    Reg.UserID r1 = Reg.UserID r2 → Reg.EventID r1 = Reg.EventID r2 →
    i = j.

Definition one_registration_per_user_event_b (regs : gmap Z Reg.row) : bool :=
  forallb (λ x, forallb (λ y : Z * Reg.row,
                           bool_decide (Reg.UserID x.2 = Reg.UserID y.2
                                        ∧ Reg.EventID x.2 = Reg.EventID y.2
                                        → x.1 = y.1))
                        (map_to_list regs))
          (map_to_list regs).

(** A call for a pair that has a row is answered "Already registered" and
    leaves the database as it is; the row's event and user exist and their
    keys are not [0], as the foreign keys and [AUTO_INCREMENT] have it. *)
Definition duplicates_rejected (db : database) : Prop :=
  ∀ k r now special,
    tblRegistrations db !! k = Some r →
    is_Some (tblEvents db !! Reg.EventID r) →
    post_registration now (Some (Reg.UserID r)) (Some (Reg.EventID r)) special db
      = (db, Render 400 "Already registered")
    ∧ (Reg.UserID r ∈ tblUsers db → Reg.UserID r ≠ 0 → Reg.EventID r ≠ 0 →
       post_api_registrations now (Some (Reg.UserID r)) (Some (Reg.EventID r)) db
         = (db, Json 400 "Already registered")).

(** The registration rows of a user for an event, as a list. *)
Definition registration_rows (userId eventId : Z) (db : database) : list Reg.row :=
  (map_to_list (registrations_of eventId userId (tblRegistrations db))).*2.

(** *** Sample calls *)

Definition sample_registration_calls : list registration_call :=
  [ CallForm 50 (Some 1) (Some 1) None;
    CallApi 60 (Some 3) (Some 2);
    CallApi 70 (Some 3) (Some 2);
    CallForm 80 (Some 3) (Some 2) (Some "front row");
    CallForm 90 None (Some 1) None ].

(** The row both handlers store for user [u] and event [e]. *)
Definition new_registration (now u e : Z) (special : option string) : Reg.row :=
  {| Reg.UserID := u; Reg.EventID := e; Reg.TeamID := None;
     Reg.RegistrationDate := now; Reg.Status := Reg.pending;
     Reg.PaymentStatus := Reg.pay_pending; Reg.SpecialRequirements := special |}.

(** *** Registration payment ([routes/payments.js]) *)

(** The columns of [Payments] and of [Registrations], as [NASCON.sql]
    declares them. *)
Definition payments_columns : list string :=
  ["PaymentID"; "Amount"; "PaymentDate"; "PaymentMethod"; "Status";
   "TransactionID"; "Description"; "PayerUserID"; "RelatedRegistrationID";
   "RelatedContractID"; "CreatedAt"; "UpdatedAt"].

Definition registrations_columns : list string :=
  ["RegistrationID"; "UserID"; "EventID"; "TeamID"; "RegistrationDate";
   "Status"; "PaymentStatus"; "SpecialRequirements"; "UpdatedAt"].

(** Column names are matched without regard to the case of letters. *)
Definition lower_case_ascii (c : Ascii.ascii) : Ascii.ascii :=
  let n := Ascii.nat_of_ascii c in
  if (65 <=? n)%nat && (n <=? 90)%nat then Ascii.ascii_of_nat (n + 32) else c.

Fixpoint lower_case (s : string) : string :=
  match s with
  | EmptyString => EmptyString
  | String c s' => String (lower_case_ascii c) (lower_case s')
  end.

(** The first of the columns a statement names that its table does not
    have. *)
Definition unknown_column (table named : list string) : option string :=
  head (filter (λ c, lower_case c ∉ lower_case <$> table) named).

(** A statement whose column list names a column that the table does not
    have is refused before any row is read or written and before any
    trigger runs: error 1054, [ER_BAD_FIELD_ERROR]. *)
Definition resolve_columns (table named : list string) : sql_result unit :=
  match unknown_column table named with
  | Some c => SqlError "42S22" ("Unknown column '" +:+ c +:+ "' in 'field list'")
  | None => SqlOk ()
  end.

(** [UPDATE Registrations SET PaymentStatus = 'paid', PaymentID = ?
     WHERE UserID = ? AND EventID = ?]: the columns the statement names, and
    what it would write to the columns the table has. *)
Definition mark_paid_columns : list string :=
  ["PaymentStatus"; "PaymentID"; "UserID"; "EventID"].

Definition set_paid (r : Reg.row) : Reg.row :=
  {| Reg.UserID := Reg.UserID r; Reg.EventID := Reg.EventID r;
     Reg.TeamID := Reg.TeamID r; Reg.RegistrationDate := Reg.RegistrationDate r;
     Reg.Status := Reg.Status r; Reg.PaymentStatus := Reg.paid;
     Reg.SpecialRequirements := Reg.SpecialRequirements r |}.

Definition mark_paid (participantId eventId : Z) (regs : gmap Z Reg.row)
    : gmap Z Reg.row :=
  (λ r, if bool_decide (Reg.UserID r = participantId ∧ Reg.EventID r = eventId)
        then set_paid r else r) <$> regs.

(** [INSERT INTO Payments (ParticipantUserID, Amount, PaymentMethod, Status,
    Description, PaymentDate) VALUES (?, ?, ?, 'completed',
    'Event Registration Payment', NOW())]: the columns the statement names,
    and the values it gives to the columns of the model's rows. *)
Definition registration_payment_columns : list string :=
  ["ParticipantUserID"; "Amount"; "PaymentMethod"; "Status"; "Description";
   "PaymentDate"].

Definition registration_payment_row (amount : Z) (paymentMethod : Pay.method)
    : Pay.row :=
  {| Pay.Amount := amount; Pay.PaymentMethod := paymentMethod;
     Pay.Status := Pay.completed;
     Pay.Description := Some "Event Registration Payment";
     Pay.PayerUserID := None;
     Pay.RelatedRegistrationID := None; Pay.RelatedContractID := None |}.

(** [POST /api/payments/registration].  [paymentMethod] is [None] when the
    field is missing.  An error of either statement is handed to [next]. *)
Definition post_payments_registration (participantId eventId amount : option Z)
    (paymentMethod : option Pay.method) (db : database) : database * response :=
  match participantId, eventId, amount, paymentMethod with
  | Some p, Some e, Some a, Some m =>
      if falsy participantId || falsy eventId || falsy amount
      then (db, Json 400 "Missing required fields")
      else
        match _ ← resolve_columns payments_columns registration_payment_columns;
              insert_payment (registration_payment_row a m) db with
        | SqlOk (db1, insertId) =>
            match resolve_columns registrations_columns mark_paid_columns with
            | SqlOk _ =>
                (with_Registrations db1 (mark_paid p e (tblRegistrations db1)),
                 Json 201 "Payment processed successfully")
            | SqlError sqlstate message => (db1, Next sqlstate message)
            end
        | SqlError sqlstate message => (db, Next sqlstate message)
        end
  | _, _, _, _ => (db, Json 400 "Missing required fields")
  end.

(** What holds of the handler in a state [db]: it changes no registration's
    [Status]; a payment inserted in any status leaves [Registrations] alone
    (the confirmation trigger is declared [AFTER UPDATE] only); the [SET]
    list of the handler's own [UPDATE] keeps every [Status]; and its
    [INSERT] is refused, so no row is written at all. *)
Definition registration_payment_frame (db : database)
    (participantId eventId amount : option Z) (paymentMethod : option Pay.method)
    : Prop :=
  let out := post_payments_registration participantId eventId amount paymentMethod db in
  (∀ k, Reg.Status <$> tblRegistrations out.1 !! k
        = Reg.Status <$> tblRegistrations db !! k)
  ∧ (∀ NEW db1 id, insert_payment NEW db = SqlOk (db1, id) →
                   tblRegistrations db1 = tblRegistrations db)
  ∧ (∀ u e k, Reg.Status <$> mark_paid u e (tblRegistrations db) !! k
              = Reg.Status <$> tblRegistrations db !! k)
  ∧ out.1 = db
  ∧ out.2 ≠ Json 201 "Payment processed successfully".

(** *** Team roster ([routes/teams.js]) *)

(** [SELECT COUNT( * ) as count FROM TeamMembers
     WHERE TeamID = ? AND Status = "active"]. *)
Definition active_members (teamId : Z) (members : gmap (Z * Z) TM.row) : nat :=
  size (filter (λ kr, kr.1.1 = teamId ∧ TM.Status kr.2 = TM.active) members).

(** [const { userId, role = 'Member' } = req.body]. *)
Definition role_or_default (role : option string) : string :=
  match role with
  | Some s => s
  | None => "Member"
  end.

(** [POST /teams/:id/members].  [req_user_id] is [req.user.id], [None] when
    it is [undefined]; the inserted row takes the default status [active],
    and the foreign key on [UserID] refuses a user that does not exist. *)
Definition post_team_member (teamId : Z) (req_user_id userId : option Z)
    (role : option string) (db : database) : database * response :=
  match tblTeams db !! teamId with
  | None => (db, Json 403 "Only team leader can add members")
  | Some team =>
      if bool_decide (Some (Teams.LeaderID team) ≠ req_user_id)
      then (db, Json 403 "Only team leader can add members")
      else if bool_decide (3 ≤ active_members teamId (tblTeamMembers db))%nat
      then (db, Json 400 "Team already has maximum allowed members (3)")
      else
        match userId with
        | None => (db, Json 500 "Failed to add team member")
        | Some u =>
            match tblTeamMembers db !! (teamId, u) with
            | Some _ => (db, Json 400 "User is already a team member")
            | None =>
                if bool_decide (u ∈ tblUsers db)
                then
                  (with_TeamMembers db
                     (<[(teamId, u) := {| TM.Role := role_or_default role;
                                          TM.Status := TM.active |}]>
                        (tblTeamMembers db)),
                   Json 201 "Member added successfully")
                else (db, Json 500 "Failed to add team member")
            end
        end
  end.

Definition set_member_status (s : TM.status) (m : TM.row) : TM.row :=
  {| TM.Role := TM.Role m; TM.Status := s |}.

(** [status] of the request body, as the statement takes it: [undefined],
    which is refused as a bind parameter; a value that the column [Status]
    reads as a member of its enumeration; or any other value, which is
    refused when a row is to be written and is not looked at when no row
    matches. *)
Inductive status_value :=
| StatusUndefined
| StatusMember (s : TM.status)
| StatusInvalid.
#[global] Instance status_value_eq_dec : EqDecision status_value.
Proof. solve_decision. Defined.

(** [PUT /teams/:id/members/:userId]. *)
Definition put_team_member (teamId : Z) (req_user_id : option Z) (userId : Z)
    (status : status_value) (db : database) : database * response :=
  match tblTeams db !! teamId with
  | None => (db, Json 403 "Only team leader can update member status")
  | Some team =>
      if bool_decide (Some (Teams.LeaderID team) ≠ req_user_id)
      then (db, Json 403 "Only team leader can update member status")
      else
        match status with
        | StatusUndefined => (db, Json 500 "Failed to update member status")
        | StatusMember s =>
            (with_TeamMembers db
               (alter (set_member_status s) (teamId, userId) (tblTeamMembers db)),
             Json 200 "Member status updated successfully")
        | StatusInvalid =>
            match tblTeamMembers db !! (teamId, userId) with
            | Some _ => (db, Json 500 "Failed to update member status")
            | None => (db, Json 200 "Member status updated successfully")
            end
        end
  end.

(** [DELETE /teams/:id/members/:userId].  The handler also lets through a
    caller for whom [req.params.userId !== req.user.id] is false; the route
    parameter is a string and [req.user.id] a number or [undefined], so that
    comparison is always true and the leader test decides. *)
Definition delete_team_member (teamId : Z) (req_user_id : option Z) (userId : Z)
    (db : database) : database * response :=
  match tblTeams db !! teamId with
  | None => (db, Json 403 "Unauthorized to remove team member")
  | Some team =>
      if bool_decide (Some (Teams.LeaderID team) ≠ req_user_id) && true
      then (db, Json 403 "Unauthorized to remove team member")
      else
        (with_TeamMembers db (delete (teamId, userId) (tblTeamMembers db)),
         Json 200 "Member removed successfully")
  end.

Inductive team_call :=
| AddMember (teamId : Z) (req_user_id userId : option Z) (role : option string)
| SetMemberStatus (teamId : Z) (req_user_id : option Z) (userId : Z)
                  (status : status_value)
| RemoveMember (teamId : Z) (req_user_id : option Z) (userId : Z).

Definition run_team_call (db : database) (c : team_call) : database :=
  match c with
  | AddMember t me u role => (post_team_member t me u role db).1
  | SetMemberStatus t me u s => (put_team_member t me u s db).1
  | RemoveMember t me u => (delete_team_member t me u db).1
  end.

Definition run_team_calls (calls : list team_call) (db : database) : database :=
  foldl run_team_call db calls.

(** Additions, removals and status updates to anything but [active]. *)
Definition add_or_remove (c : team_call) : bool :=
  match c with
  | AddMember _ _ _ _ | RemoveMember _ _ _ => true
  | SetMemberStatus _ _ _ s => bool_decide (s ≠ StatusMember TM.active)
  end.

(** *** Sample data: team "Code Crusaders" with three active members *)

Definition code_crusaders : Teams.row :=
  {| Teams.TeamName := "Code Crusaders"; Teams.EventID := 1;
     Teams.LeaderID := 1; Teams.Status := Teams.active |}.

Definition full_team : database :=
  {| tblUsers := {[1; 2; 3; 4]};
     tblEvents := <[1 := programming_contest]> ∅;
     tblTeams := <[1 := code_crusaders]> ∅;
     tblTeamMembers :=
       <[(1, 1) := {| TM.Role := "Leader"; TM.Status := TM.active |}]>
         (<[(1, 2) := {| TM.Role := "Member"; TM.Status := TM.active |}]>
            (<[(1, 3) := {| TM.Role := "Member"; TM.Status := TM.active |}]> ∅));
     tblRegistrations := ∅;
     tblPayments := ∅ |}.

(** * Further code of the repository *)

(** ** [AssignAccommodation]: outcome of one call *)

(** What a call on request [p] may touch: the table [Accommodations] and all
    other requests stay as they are, and of request [p] only [Status],
    [AssignedAccommodationID] and [AssignmentNotes] can change. *)
Definition assign_frame (db db' : lodging) (p : Z) : Prop :=
  tblAccommodations db' = tblAccommodations db
  ∧ (∀ k, k ≠ p → tblAccommodationRequests db' !! k = tblAccommodationRequests db !! k)
  ∧ match tblAccommodationRequests db !! p, tblAccommodationRequests db' !! p with
    | Some r, Some r' =>
        Req.UserID r' = Req.UserID r
        ∧ Req.CheckInDate r' = Req.CheckInDate r
        ∧ Req.CheckOutDate r' = Req.CheckOutDate r
        ∧ Req.NumberOfPeople r' = Req.NumberOfPeople r
    | None, None => True
    | _, _ => False
    end.

(** The outcome of a call on the pending request [r] stored under [p]. *)
Definition assign_outcome (db : lodging) (p : Z) (r : Req.row) : Prop :=
  let out := AssignAccommodation p db in
  let fits a := candidate (tblAccommodationRequests db) p (Req.CheckInDate r)
                  (Req.CheckOutDate r) (Req.NumberOfPeople r) a = true in
  match tblAccommodationRequests (out_db out) !! p with
  | Some r' =>
      ((∃ a, a ∈ tblAccommodations db ∧ fits a) ↔ p_Success out = true)
      ∧ (p_Success out = true →
           Req.Status r' = Req.Approved
           ∧ ∃ a, a ∈ tblAccommodations db
                  ∧ Req.AssignedAccommodationID r' = Some (Acc.AccommodationID a)
                  ∧ Req.NumberOfPeople r ≤ Acc.Capacity a
                  ∧ Acc.Availability a ≠ Acc.Unavailable)
      ∧ (p_Success out = false →
           Req.Status r' = Req.Rejected
           ∧ Req.AssignedAccommodationID r' = Req.AssignedAccommodationID r)
  | None => False
  end.

(** An accommodation under maintenance, and a request that only it can host. *)
Definition maintenance_hall : Acc.row :=
  {| Acc.AccommodationID := 4; Acc.Name := "Hall under repair";
     Acc.Capacity := 8; Acc.Availability := Acc.Maintenance |}.

Definition maintenance_only : lodging :=
  {| tblAccommodations := [maintenance_hall];
     tblAccommodationRequests := fresh_request |}.

(** ** Payments: what an update may change, and the financial summary *)

(** What an accepted [UPDATE] of payment [pid] may change: no other payment,
    no other table, and of [Registrations] only a row that was [pending] or
    [waitlisted], is the target of the updated payment, and is confirmed by a
    completing update. *)
Definition update_only_confirms (db db' : database) (pid : Z)
    (set : Pay.row → Pay.row) : Prop :=
  tblUsers db' = tblUsers db
  ∧ tblEvents db' = tblEvents db
  ∧ tblTeams db' = tblTeams db
  ∧ tblTeamMembers db' = tblTeamMembers db
  ∧ (∀ q, q ≠ pid → tblPayments db' !! q = tblPayments db !! q)
  ∧ (∀ k,
       match tblRegistrations db !! k with
       | None => tblRegistrations db' !! k = None
       | Some r =>
           tblRegistrations db' !! k = Some r
           ∨ (tblRegistrations db' !! k = Some (confirm_paid r)
              ∧ (Reg.Status r = Reg.pending ∨ Reg.Status r = Reg.waitlisted)
              ∧ ∃ OLD, tblPayments db !! pid = Some OLD
                       ∧ Pay.Status OLD ≠ Pay.completed
                       ∧ Pay.Status (set OLD) = Pay.completed
                       ∧ Pay.RelatedRegistrationID (set OLD) = Some k)
       end).

(** [SELECT COALESCE(SUM(Amount), 0.00) FROM Payments WHERE cond]. *)
Definition sum_amount (cond : Pay.row → bool) (payments : gmap Z Pay.row) : Z :=
  map_fold (λ _ p total, (if cond p then Pay.Amount p else 0) + total) 0 payments.

(** [WHERE RelatedRegistrationID IS NOT NULL AND Status = 'completed']. *)
Definition registration_revenue (p : Pay.row) : bool :=
  bool_decide (Pay.RelatedRegistrationID p ≠ None)
  && bool_decide (Pay.Status p = Pay.completed).

(** [WHERE RelatedContractID IS NOT NULL AND Status = 'completed']. *)
Definition sponsorship_revenue (p : Pay.row) : bool :=
  bool_decide (Pay.RelatedContractID p ≠ None)
  && bool_decide (Pay.Status p = Pay.completed).

(** The stored procedure [GenerateFinancialSummary]: its two result rows. *)
Definition GenerateFinancialSummary (db : database) : list (string * Z) :=
  [ ("Registration Revenue", sum_amount registration_revenue (tblPayments db));
    ("Sponsorship Revenue", sum_amount sponsorship_revenue (tblPayments db)) ].

Definition is_completed (p : Pay.row) : bool :=
  bool_decide (Pay.Status p = Pay.completed).

(** The summary after the completion of a registration payment [OLD]. *)
Definition completion_raises_registration_revenue (db : database) (pid : Z)
    (OLD : Pay.row) : Prop :=
  ∃ db' reg spons,
    completePayment pid db = SqlOk db'
    ∧ GenerateFinancialSummary db
      = [("Registration Revenue", reg); ("Sponsorship Revenue", spons)]
    ∧ GenerateFinancialSummary db'
      = [("Registration Revenue", reg + Pay.Amount OLD);
         ("Sponsorship Revenue", spons)].

(** [description || 'Sponsorship Payment']. *)
Definition or_default (s : option string) (d : string) : string :=
  match s with
  | None | Some "" => d
  | Some s => s
  end.

(** [INSERT INTO Payments (SponsorID, Amount, PaymentMethod, Status,
    Description, PaymentDate) VALUES (?, ?, ?, 'completed', ?, NOW())]: the
    columns the statement names, and the values it gives to the columns of
    the model's rows. *)
Definition sponsorship_payment_columns : list string :=
  ["SponsorID"; "Amount"; "PaymentMethod"; "Status"; "Description";
   "PaymentDate"].

Definition sponsorship_payment_row (amount : Z) (paymentMethod : Pay.method)
    (description : option string) : Pay.row :=
  {| Pay.Amount := amount; Pay.PaymentMethod := paymentMethod;
     Pay.Status := Pay.completed;
     Pay.Description := Some (or_default description "Sponsorship Payment");
     Pay.PayerUserID := None;
     Pay.RelatedRegistrationID := None; Pay.RelatedContractID := None |}.

(** [POST /api/payments/sponsorship].  An error of the statement is caught
    and answered 500. *)
Definition post_payments_sponsorship (sponsorId amount : option Z)
    (paymentMethod : option Pay.method) (description : option string)
    (db : database) : database * response :=
  match sponsorId, amount, paymentMethod with
  | Some s, Some a, Some m =>
      if falsy sponsorId || falsy amount
      then (db, Json 400 "Missing required fields")
      else
        match _ ← resolve_columns payments_columns sponsorship_payment_columns;
              insert_payment (sponsorship_payment_row a m description) db with
        | SqlOk (db1, insertId) =>
            (db1, Json 201 "Sponsorship payment recorded successfully")
        | SqlError _ _ => (db, Json 500 "Internal server error")
        end
  | _, _, _ => (db, Json 400 "Missing required fields")
  end.

(** A contract payment beside the registration payment of scenario C. *)
Definition payment_bank : Pay.row :=
  {| Pay.Amount := 90000; Pay.PaymentMethod := Pay.bank_transfer;
     Pay.Status := Pay.completed;
     Pay.Description := Some "Payment for Silver Sponsorship Contract";
     Pay.PayerUserID := Some 4;
     Pay.RelatedRegistrationID := None; Pay.RelatedContractID := Some 2 |}.

Definition two_payments : database := after_insert_payment payment_bank scenario_C.

(** ** Team roster: who may change it *)

Definition team_of (c : team_call) : Z :=
  match c with
  | AddMember t _ _ _ | SetMemberStatus t _ _ _ | RemoveMember t _ _ => t
  end.

Definition caller_of (c : team_call) : option Z :=
  match c with
  | AddMember _ me _ _ | SetMemberStatus _ me _ _ | RemoveMember _ me _ => me
  end.

Definition team_call_response (db : database) (c : team_call) : response :=
  match c with
  | AddMember t me u role => (post_team_member t me u role db).2
  | SetMemberStatus t me u s => (put_team_member t me u s db).2
  | RemoveMember t me u => (delete_team_member t me u db).2
  end.

(** *** The caller, as the session layer hands it to the handlers *)

(** A JavaScript value, as far as the handlers look at it. *)
Inductive js_value :=
| JsUndefined
| JsNumber (n : Z)
| JsString (s : string)
| JsObject.

(** The row that [deserializeUser] selects for the user of the session:
    [SELECT u.UserID, u.Name, u.Email, u.username, u.RoleID,
     r.RoleName as Role FROM Users u JOIN Roles r ...]. *)
Module SessionUser.
Record row := {
  UserID : Z;
  Name : string;
  Email : string;
  username : string;
  RoleID : Z;
  Role : string;
}.
End SessionUser.

(** [req.user]: the object of that row, to which [deserializeUser] adds the
    property [privileges].  (The object that the login strategy passes on
    has the further property [Password].) *)
Definition req_user (u : SessionUser.row) : list (string * js_value) :=
  [("UserID", JsNumber (SessionUser.UserID u));
   ("Name", JsString (SessionUser.Name u));
   ("Email", JsString (SessionUser.Email u));
   ("username", JsString (SessionUser.username u));
   ("RoleID", JsNumber (SessionUser.RoleID u));
   ("Role", JsString (SessionUser.Role u));
   ("privileges", JsObject)].

(** [o.name]: the value of a property, [undefined] when the object has no
    property of that name. *)
Fixpoint property (o : list (string * js_value)) (name : string) : js_value :=
  match o with
  | [] => JsUndefined
  | (k, v) :: o' => if bool_decide (k = name) then v else property o' name
  end.

(** [req.user.id], as the roster handlers compare it with [team.LeaderID]
    under [!==]: a number, or [None] for any other value. *)
Definition req_user_id (u : SessionUser.row) : option Z :=
  match property (req_user u) "id" with
  | JsNumber n => Some n
  | _ => None
  end.





(** A team of two with room for one more member. *)
Definition team_of_two : database :=
  {| tblUsers := {[1; 2; 3; 4]};
     tblEvents := <[1 := programming_contest]> ∅;
     tblTeams := <[1 := code_crusaders]> ∅;
     tblTeamMembers :=
       <[(1, 1) := {| TM.Role := "Leader"; TM.Status := TM.active |}]>
         (<[(1, 3) := {| TM.Role := "Member"; TM.Status := TM.active |}]> ∅);
     tblRegistrations := ∅;
     tblPayments := ∅ |}.

(** ** [PATCH /registration/:id] *)






(** ** Password rules ([utils/passwordValidator.js], [middleware/validation.js]) *)

(** A JavaScript string is the list of its UTF-16 code units; the regular
    expressions below carry no [u] flag and test code units. *)
Definition js_string := list Z.

(** The code units of a string of ASCII characters. *)
Definition units (s : string) : js_string :=
  (λ c, Z.of_N (Ascii.N_of_ascii c)) <$> String.list_ascii_of_string s.

Definition in_range (lo hi c : Z) : bool := (lo <=? c) && (c <=? hi).

(** [[A-Z]], [[a-z]], [[0-9]] (which is also [\d]). *)
Definition upper (c : Z) : bool := in_range 65 90 c.
Definition lower (c : Z) : bool := in_range 97 122 c.
Definition digit (c : Z) : bool := in_range 48 57 c.

(** The class of [passwordValidator]'s last test: the twenty characters
    ! @ # $ % ^ & * ( ) , . ? (double quote) : { } | < >. *)
Definition validator_special (c : Z) : bool :=
  bool_decide (c ∈ [33; 64; 35; 36; 37; 94; 38; 42; 40; 41; 44; 46; 63; 34;
                    58; 123; 125; 124; 60; 62]).

(** [/[...]/.test(s)]: some code unit of [s] is in the class. *)
Definition test_class (cls : Z → bool) (s : js_string) : bool := existsb cls s.

Definition passwordValidator (password : js_string) : bool :=
  if (length password <? 8)%nat then false
  else if negb (test_class upper password) then false
  else if negb (test_class lower password) then false
  else if negb (test_class digit password) then false
  else if negb (test_class validator_special password) then false
  else true.

(** The password rule of [registerValidation]:
    [^(?=.*[a-z])(?=.*[A-Z])(?=.*\d)(?=.*[@$!%*?&])[A-Za-z\d@$!%*?&]{8,}$]. *)

(** [.] matches any code unit but the line terminators LF, CR, U+2028 and
    U+2029. *)
Definition line_terminator (c : Z) : bool :=
  bool_decide (c ∈ [10; 13; 8232; 8233]).

(** A lookahead [(?=.*[cls])] at the start of [s]. *)
Fixpoint lookahead (cls : Z → bool) (s : js_string) : bool :=
  match s with
  | [] => false
  | c :: s' => cls c || (negb (line_terminator c) && lookahead cls s')
  end.

(** [[@$!%*?&]]. *)
Definition rule_special (c : Z) : bool :=
  bool_decide (c ∈ [64; 36; 33; 37; 42; 63; 38]).

(** [[A-Za-z\d@$!%*?&]]. *)
Definition rule_allowed (c : Z) : bool :=
  upper c || lower c || digit c || rule_special c.

Definition matches_password_rule (s : js_string) : bool :=
  lookahead lower s && lookahead upper s && lookahead digit s
  && lookahead rule_special s
  && forallb rule_allowed s && (8 <=? length s)%nat.

(** ** Sponsorship contracts: the link triggers and the check constraints *)

Module SponsorshipContracts.
Inductive status := active | expired | terminated | pending_payment | negotiation.

(** The key [ContractID] is the key of the table's map. *)
Record row := {
  SponsorID : Z;
  PackageID : option Z;
  CustomLevelID : option Z;
  ContractAmount : Z;
  SignedDate : Z;
  StartDate : Z;
  EndDate : Z;
  Status : status;
}.
End SponsorshipContracts.

Module Con := SponsorshipContracts.

Definition validate_sponsorship_link_on_insert (NEW : Con.row) : sql_result unit :=
  if bool_decide (Con.PackageID NEW = None)
     && bool_decide (Con.CustomLevelID NEW = None)
  then SqlError "45000"
         "Sponsorship Contract must be linked to either a standard PackageID or a CustomLevelID."
  else SqlOk ().

Definition validate_sponsorship_link_on_update (NEW : Con.row) : sql_result unit :=
  if bool_decide (Con.PackageID NEW = None)
     && bool_decide (Con.CustomLevelID NEW = None)
  then SqlError "45000"
         "Sponsorship Contract must be linked to either a standard PackageID or a CustomLevelID."
  else SqlOk ().

(** [CHECK (ContractAmount >= 0)] and [CHECK (EndDate >= StartDate)]. *)
Definition check_contract (NEW : Con.row) : sql_result unit :=
  if negb (Con.ContractAmount NEW >=? 0)
  then SqlError "HY000" "Check constraint 'sponsorshipcontracts_chk_1' is violated."
  else if negb (Con.EndDate NEW >=? Con.StartDate NEW)
  then SqlError "HY000" "Check constraint 'sponsorshipcontracts_chk_2' is violated."
  else SqlOk ().

(** [INSERT INTO SponsorshipContracts ...] of one row. *)
Definition insert_contract (NEW : Con.row) (contracts : gmap Z Con.row)
    : sql_result (gmap Z Con.row * Z) :=
  _ ← validate_sponsorship_link_on_insert NEW;
  _ ← check_contract NEW;
  let id := auto_increment contracts in
  SqlOk (<[id := NEW]> contracts, id).

(** [UPDATE SponsorshipContracts SET ... WHERE ContractID = cid]. *)
Definition update_contract (cid : Z) (set : Con.row → Con.row)
    (contracts : gmap Z Con.row) : sql_result (gmap Z Con.row) :=
  match contracts !! cid with
  | None => SqlOk contracts
  | Some OLD =>
      let NEW := set OLD in
      _ ← validate_sponsorship_link_on_update NEW;
      _ ← check_contract NEW;
      SqlOk (<[cid := NEW]> contracts)
  end.

Definition after_insert_contract (NEW : Con.row) (contracts : gmap Z Con.row)
    : gmap Z Con.row :=
  match insert_contract NEW contracts with
  | SqlOk (contracts', _) => contracts'
  | SqlError _ _ => contracts
  end.

Definition after_update_contract (cid : Z) (set : Con.row → Con.row)
    (contracts : gmap Z Con.row) : gmap Z Con.row :=
  match update_contract cid set contracts with
  | SqlOk contracts' => contracts'
  | SqlError _ _ => contracts
  end.

(** The tables reached from the empty one by attempted inserts and updates. *)
Inductive contracts_reachable : gmap Z Con.row → Prop :=
| contracts_empty : contracts_reachable ∅
| contracts_insert contracts NEW :
    contracts_reachable contracts →
    contracts_reachable (after_insert_contract NEW contracts)
| contracts_update contracts cid set :
    contracts_reachable contracts →
    contracts_reachable (after_update_contract cid set contracts).

(** A contract names a package or a level (or both), a non-negative amount
    and an end date not before its start date. *)
Definition contract_ok (c : Con.row) : Prop :=
  (Con.PackageID c ≠ None ∨ Con.CustomLevelID c ≠ None)
  ∧ 0 ≤ Con.ContractAmount c
  ∧ Con.StartDate c ≤ Con.EndDate c.

Definition contracts_guarded (contracts : gmap Z Con.row) : Prop :=
  map_Forall (λ _ c, contract_ok c) contracts
  ∧ (∀ NEW, ¬ contract_ok NEW →
       sql_rejected (insert_contract NEW contracts)
       ∧ after_insert_contract NEW contracts = contracts)
  ∧ (∀ cid set OLD,
       contracts !! cid = Some OLD → ¬ contract_ok (set OLD) →
       sql_rejected (update_contract cid set contracts)
       ∧ after_update_contract cid set contracts = contracts).

(** The seed contract of Global Bank, and the seed script's
    [UPDATE SponsorshipContracts SET Status = 'active' WHERE ...]. *)
Definition contract_bank : Con.row :=
  {| Con.SponsorID := 2; Con.PackageID := None; Con.CustomLevelID := Some 3;
     Con.ContractAmount := 90000; Con.SignedDate := 74; Con.StartDate := 105;
     Con.EndDate := 288; Con.Status := Con.pending_payment |}.

Definition set_active (c : Con.row) : Con.row :=
  {| Con.SponsorID := Con.SponsorID c; Con.PackageID := Con.PackageID c;
     Con.CustomLevelID := Con.CustomLevelID c;
     Con.ContractAmount := Con.ContractAmount c;
     Con.SignedDate := Con.SignedDate c; Con.StartDate := Con.StartDate c;
     Con.EndDate := Con.EndDate c; Con.Status := Con.active |}.

(** ** System alerts: the low-stock trigger and the reminder job

    Of the tables below only the columns that the modelled statements read
    or write are kept.  Times are seconds; a day has 86400 of them. *)

Module InventoryItems.
(** The key [ItemID] is the key of the table's map. *)
Record row := {
  ItemName : string;
  QuantityOnHand : Z;
  LowStockThreshold : option Z;
}.
End InventoryItems.

Module SystemAlerts.
(** The key [AlertID] is the key of the table's map. *)
Record row := {
  UserID : option Z;
  TargetRoleID : option Z;
  AlertType : string;
  Message : string;
  RelatedEventID : option Z;
  RelatedItemID : option Z;
  IsRead : bool;
  CreatedAt : Z;
}.
End SystemAlerts.

Module Item := InventoryItems.
Module Alert := SystemAlerts.

Record stock := {
  tblRoles : gmap Z string;
  tblInventoryItems : gmap Z Item.row;
  tblSystemAlerts : gmap Z Alert.row;
}.

(** [EXISTS (SELECT 1 FROM SystemAlerts WHERE cond)]. *)
Definition exists_alert (cond : Alert.row → bool) (alerts : gmap Z Alert.row) : bool :=
  existsb (λ kr, cond kr.2) (map_to_list alerts).

(** [INSERT INTO SystemAlerts] of one row for each element of [xs], in
    order, each under the next key. *)
Definition insert_alerts {A} (mk : A → Alert.row) (xs : list A)
    (alerts : gmap Z Alert.row) : gmap Z Alert.row :=
  foldl (λ alerts x, <[auto_increment alerts := mk x]> alerts) alerts xs.

(** The outer [IF] of [CheckLowStockOnUpdate]. *)
Definition low_stock_crossed (OLD NEW : Item.row) : bool :=
  (Item.QuantityOnHand NEW <? Item.QuantityOnHand OLD)
  && match Item.LowStockThreshold NEW with
     | Some threshold =>
         (Item.QuantityOnHand NEW <? threshold)
         && (Item.QuantityOnHand OLD >=? threshold)
     | None => false
     end.

(** The [WHERE] clause of the trigger's [NOT EXISTS]:
    [AlertType = 'LowInventory' AND RelatedItemID = NEW.ItemID
     AND IsRead = FALSE AND CreatedAt > NOW() - INTERVAL 1 HOUR]. *)
Definition unread_low_stock_alert (now itemId : Z) (a : Alert.row) : bool :=
  bool_decide (Alert.AlertType a = "LowInventory")
  && bool_decide (Alert.RelatedItemID a = Some itemId)
  && negb (Alert.IsRead a)
  && (Alert.CreatedAt a >? now - 3600).

(** The alert types in [SystemAlerts] are written by this trigger, by the
    reminder job and by the seed script, each time in the spelling of the
    literal it is compared with. *)

Definition double_quote : string := String (Ascii.ascii_of_nat 34) EmptyString.

Definition low_stock_alert (now itemId : Z) (NEW : Item.row) (roleId : Z) : Alert.row :=
  {| Alert.UserID := None;
     Alert.TargetRoleID := Some roleId;
     Alert.AlertType := "LowInventory";
     Alert.Message :=
       "Low stock alert: Item " +:+ double_quote +:+ Item.ItemName NEW
       +:+ double_quote +:+ " (ID: " +:+ pretty itemId +:+ ") has reached "
       +:+ pretty (Item.QuantityOnHand NEW) +:+ " units (Threshold: "
       +:+ pretty (default 0 (Item.LowStockThreshold NEW)) +:+ ").";
     Alert.RelatedEventID := None;
     Alert.RelatedItemID := Some itemId;
     Alert.IsRead := false;
     Alert.CreatedAt := now |}.

Section low_stock.
(** Equality of two strings under the collation of the column
    [Roles.RoleName].  [NASCON.sql] declares none, so it is the default of
    the server, which need not distinguish the case of letters or
    accents. *)
Variable collate : string → string → bool.

(** [SELECT r.RoleID FROM Roles r WHERE r.RoleName IN ('admin', 'super_admin')]. *)
Definition admin_roles (roles : gmap Z string) : list Z :=
  (map_to_list
     (filter (λ kr, collate kr.2 "admin" || collate kr.2 "super_admin" = true)
             roles)).*1.

(** [AFTER UPDATE ON InventoryItems FOR EACH ROW]; [now] is [NOW()]. *)
Definition CheckLowStockOnUpdate (now itemId : Z) (OLD NEW : Item.row) (st : stock)
    : stock :=
  if low_stock_crossed OLD NEW then
    if negb (exists_alert (unread_low_stock_alert now itemId) (tblSystemAlerts st))
    then {| tblRoles := tblRoles st;
            tblInventoryItems := tblInventoryItems st;
            tblSystemAlerts :=
              insert_alerts (low_stock_alert now itemId NEW)
                (admin_roles (tblRoles st)) (tblSystemAlerts st) |}
    else st
  else st.

(** [CHECK (QuantityOnHand >= 0)] and
    [CHECK (LowStockThreshold IS NULL OR LowStockThreshold >= 0)]. *)
Definition check_item (NEW : Item.row) : sql_result unit :=
  if negb (Item.QuantityOnHand NEW >=? 0)
  then SqlError "HY000" "Check constraint 'inventoryitems_chk_1' is violated."
  else match Item.LowStockThreshold NEW with
       | Some threshold =>
           if threshold >=? 0 then SqlOk ()
           else SqlError "HY000" "Check constraint 'inventoryitems_chk_2' is violated."
       | None => SqlOk ()
       end.

(** [UPDATE InventoryItems SET ... WHERE ItemID = itemId] at time [now]. *)
Definition update_item (now itemId : Z) (set : Item.row → Item.row) (st : stock)
    : sql_result stock :=
  match tblInventoryItems st !! itemId with
  | None => SqlOk st
  | Some OLD =>
      let NEW := set OLD in
      _ ← check_item NEW;
      SqlOk (CheckLowStockOnUpdate now itemId OLD NEW
               {| tblRoles := tblRoles st;
                  tblInventoryItems := <[itemId := NEW]> (tblInventoryItems st);
                  tblSystemAlerts := tblSystemAlerts st |})
  end.

(** What an accepted update of item [itemId] at time [now] does to the
    alerts: none is removed or changed, and an alert that is new is an unread
    [LowInventory] alert for that item and for a role whose name equals
    [admin] or [super_admin] under the collation, created at [now], after
    the quantity fell from at or above the threshold to below it, with no
    unread alert of the last hour. *)
Definition low_stock_alerts_shape (now itemId : Z) (set : Item.row → Item.row)
    (st st' : stock) : Prop :=
  tblRoles st' = tblRoles st
  ∧ (∀ k a, tblSystemAlerts st !! k = Some a → tblSystemAlerts st' !! k = Some a)
  ∧ (∀ k a,
       tblSystemAlerts st !! k = None → tblSystemAlerts st' !! k = Some a →
       ∃ OLD threshold roleId name,
         tblInventoryItems st !! itemId = Some OLD
         ∧ Item.LowStockThreshold (set OLD) = Some threshold
         ∧ Item.QuantityOnHand (set OLD) < threshold ≤ Item.QuantityOnHand OLD
         ∧ exists_alert (unread_low_stock_alert now itemId) (tblSystemAlerts st) = false
         ∧ tblRoles st !! roleId = Some name
         ∧ (collate name "admin" = true ∨ collate name "super_admin" = true)
         ∧ a = low_stock_alert now itemId (set OLD) roleId).

(** The database after a statement on [InventoryItems]. *)
Definition after_update_item (now itemId : Z) (set : Item.row → Item.row) (st : stock)
    : stock :=
  match update_item now itemId set st with
  | SqlOk st' => st'
  | SqlError _ _ => st
  end.

(** A sequence of updates of item [itemId], each with its time. *)
Definition update_item_steps (itemId : Z) (steps : list (Z * (Item.row → Item.row)))
    (st : stock) : stock :=
  foldl (λ st step, after_update_item step.1 itemId step.2 st) st steps.

End low_stock.

(** A collation that does not distinguish the case of the letters [A] to
    [Z], and one that compares strings as they are stored. *)
Definition ignore_case (s t : string) : bool :=
  bool_decide (lower_case s = lower_case t).

Definition binary (s t : string) : bool := bool_decide (s = t).

(** [SET QuantityOnHand = q]. *)
Definition set_quantity (q : Z) (i : Item.row) : Item.row :=
  {| Item.ItemName := Item.ItemName i; Item.QuantityOnHand := q;
     Item.LowStockThreshold := Item.LowStockThreshold i |}.

Definition tshirts : Item.row :=
  {| Item.ItemName := "NASCON T-Shirt"; Item.QuantityOnHand := 50;
     Item.LowStockThreshold := Some 20 |}.

Definition store : stock :=
  {| tblRoles := <[1 := "super_admin"]> (<[2 := "admin"]> (<[4 := "participant"]> ∅));
     tblInventoryItems := <[1 := tshirts]> ∅;
     tblSystemAlerts := ∅ |}.

(** The same store when the name of role 2 is written with a capital
    letter. *)
Definition store_capital : stock :=
  {| tblRoles := <[1 := "super_admin"]> (<[2 := "Admin"]> (<[4 := "participant"]> ∅));
     tblInventoryItems := <[1 := tshirts]> ∅;
     tblSystemAlerts := ∅ |}.

(** Stock falls to 10 at time 1000, is refilled, and falls to 5 before the
    hour is over. *)
Definition refill_and_fall : list (Z * (Item.row → Item.row)) :=
  [ (1500, set_quantity 60); (2000, set_quantity 5) ].

(** *** The scheduled event [GenerateEventReminders] *)

(** A row fetched from the cursor [cur_reminders]. *)
Record reminder_row := {
  v_user_id : Z;
  v_event_id : Z;
  v_event_name : string;
  v_event_date : Z;
  v_event_time : Z;
}.

(** [DATE(NOW() + INTERVAL 3 DAY)], as a day count. *)
Definition date_in_three_days (now : Z) : Z := (now + 3 * 86400) `div` 86400.

(** The [WHERE] clause of the job's [NOT EXISTS]:
    [AlertType = 'EventReminder' AND UserID = v_user_id
     AND RelatedEventID = v_event_id AND CreatedAt > NOW() - INTERVAL 2 DAY]. *)
Definition recent_reminder (now : Z) (row : reminder_row) (a : Alert.row) : bool :=
  bool_decide (Alert.AlertType a = "EventReminder")
  && bool_decide (Alert.UserID a = Some (v_user_id row))
  && bool_decide (Alert.RelatedEventID a = Some (v_event_id row))
  && (Alert.CreatedAt a >? now - 2 * 86400).

Section reminders.
(** [DATE_FORMAT(d, '%W, %M %e, %Y')] and [TIME_FORMAT(t, '%h:%i %p')], the
    formatting functions of the database server. *)
Variable DATE_FORMAT : Z → string.
Variable TIME_FORMAT : Z → string.

(** The columns [Date] (a day count) and [Time] of [Events], both
    [NOT NULL], which the rows of [Events.row] do not carry, by [EventID]. *)
Variable schedule : Z → Z * Z.

(** The cursor's query: the confirmed registrations of published events that
    take place in three days. *)
Definition cur_reminders (now : Z) (db : database) : list reminder_row :=
  omap (λ kr : Z * Reg.row,
          e ← tblEvents db !! Reg.EventID kr.2;
          let dt := schedule (Reg.EventID kr.2) in
          if bool_decide (Reg.Status kr.2 = Reg.confirmed)
             && bool_decide (Events.Status e = Events.Published)
             && bool_decide (dt.1 = date_in_three_days now)
          then Some {| v_user_id := Reg.UserID kr.2;
                       v_event_id := Reg.EventID kr.2;
                       v_event_name := Events.Name e;
                       v_event_date := dt.1;
                       v_event_time := dt.2 |}
          else None)
       (map_to_list (tblRegistrations db)).

Definition reminder_alert (now : Z) (row : reminder_row) : Alert.row :=
  {| Alert.UserID := Some (v_user_id row);
     Alert.TargetRoleID := None;
     Alert.AlertType := "EventReminder";
     Alert.Message :=
       "Reminder: Your event " +:+ double_quote +:+ v_event_name row
       +:+ double_quote +:+ " is scheduled for "
       +:+ DATE_FORMAT (v_event_date row) +:+ " at "
       +:+ TIME_FORMAT (v_event_time row) +:+ ".";
     Alert.RelatedEventID := Some (v_event_id row);
     Alert.RelatedItemID := None;
     Alert.IsRead := false;
     Alert.CreatedAt := now |}.

(** The body of [read_loop] for one fetched row. *)
Definition remind (now : Z) (alerts : gmap Z Alert.row) (row : reminder_row)
    : gmap Z Alert.row :=
  if negb (exists_alert (recent_reminder now row) alerts)
  then <[auto_increment alerts := reminder_alert now row]> alerts
  else alerts.

(** One run of the job: the table [SystemAlerts] afterwards.  The run is
    taken at one instant [now], the value of [NOW()] in each of its
    statements; the cursor reads [Registrations] and [Events] when it is
    opened, every [NOT EXISTS] reads the alerts inserted so far. *)
Definition GenerateEventReminders (now : Z) (db : database)
    (alerts : gmap Z Alert.row) : gmap Z Alert.row :=
  foldl (remind now) alerts (cur_reminders now db).

(** What one run does to the alerts: none is removed or changed; an alert
    that is new is the reminder of a confirmed registration for a published
    event that takes place in three days; and every such registration has a
    reminder of the last two days afterwards. *)
Definition reminders_shape (now : Z) (db : database)
    (alerts alerts' : gmap Z Alert.row) : Prop :=
  (∀ k a, alerts !! k = Some a → alerts' !! k = Some a)
  ∧ (∀ k a,
       alerts !! k = None → alerts' !! k = Some a →
       ∃ rid r e,
         tblRegistrations db !! rid = Some r
         ∧ Reg.Status r = Reg.confirmed
         ∧ tblEvents db !! Reg.EventID r = Some e
         ∧ Events.Status e = Events.Published
         ∧ (schedule (Reg.EventID r)).1 = date_in_three_days now
         ∧ Alert.UserID a = Some (Reg.UserID r)
         ∧ Alert.RelatedEventID a = Some (Reg.EventID r)
         ∧ Alert.AlertType a = "EventReminder"
         ∧ Alert.IsRead a = false
         ∧ Alert.CreatedAt a = now)
  ∧ (∀ row, row ∈ cur_reminders now db →
            exists_alert (recent_reminder now row) alerts' = true).

End reminders.

(** A confirmed registration for the music night, which takes place on day 10
    at 19:00. *)
Definition registration_confirmed : Reg.row :=
  {| Reg.UserID := 1; Reg.EventID := 2; Reg.TeamID := None;
     Reg.RegistrationDate := 0; Reg.Status := Reg.confirmed;
     Reg.PaymentStatus := Reg.not_required; Reg.SpecialRequirements := None |}.

Definition before_music_night : database :=
  with_Registrations no_payments
    (<[3 := registration_confirmed]> (tblRegistrations no_payments)).

Definition music_schedule (event : Z) : Z * Z :=
  if bool_decide (event = 2) then (10, 68400) else (0, 0).

(** *** Competition registration ([POST /competitions/api/register]) *)

(** [!s] for a string read from the request; [None] is [undefined]. *)
Definition falsy_string (s : option string) : bool :=
  match s with
  | None | Some "" => true
  | Some _ => false
  end.

(** [new Date(v)] for a [DATETIME] column as the driver returns it (a [Date],
    or [null] for [NULL]): [new Date(null)] is the epoch. *)
Definition new_Date (v : option Z) : Z := default 0 v.

(** [SELECT ... FROM Events WHERE EventID = ? AND Status = 'Published']. *)
Definition published_event (e : Z) (db : database) : option Events.row :=
  event ← tblEvents db !! e;
  if bool_decide (Events.Status event = Events.Published)
  then Some event else None.

(** [POST /competitions/api/register] at time [now] (the value of
    [new Date()], in the unit of the column [RegistrationDeadline]).  The
    query for an existing registration reads [EventRegistrations], a table
    that [NASCON.sql] does not create: the statement raises and the error is
    caught by the handler, which answers 500; the statements after it are
    not reached. *)
Definition post_competitions_register (now : Z) (eventId userId : option Z)
    (registrationType : option string) (teamId : option Z) (db : database)
    : database * response :=
  if falsy eventId || falsy userId || falsy_string registrationType
  then (db, Json 400 "Missing required fields")
  else
    match eventId ≫= λ e, published_event e db with
    | None => (db, Json 404 "Event not found or registration is closed")
    | Some event =>
        if new_Date (Events.RegistrationDeadline event) <? now
        then (db, Json 400 "Registration deadline has passed")
        else (db, Json 500 "Registration failed")
    end.

(** The answers of [POST /competitions/api/register] for a published event
    [e] when the request names an event, a user and a registration type. *)
Definition competition_answers (now : Z) (e userId : Z)
    (registrationType : string) (teamId : option Z) (db : database)
    (event : Events.row) : Prop :=
  let out := post_competitions_register now (Some e) (Some userId)
               (Some registrationType) teamId db in
  out.1 = db
  ∧ (out.2 = Json 400 "Registration deadline has passed"
     ↔ match Events.RegistrationDeadline event with
       | Some d => d < now
       | None => 0 < now
       end)
  ∧ (out.2 = Json 400 "Registration deadline has passed"
     ∨ out.2 = Json 500 "Registration failed").

(** * Properties *)

(** ** Accommodation allocation *)

Section allocation.
Implicit Types (reqs : gmap Z Req.row) (db : lodging) (a : Acc.row).

Lemma exists_blocking_false reqs acc p cin cout k ar :
  exists_blocking reqs acc p cin cout = false →
  reqs !! k = Some ar →
  blocks acc p cin cout k ar = false.
Proof.
  unfold exists_blocking. intros Hex Hk.
  destruct (blocks acc p cin cout k ar) eqn:Hb; [|done].
  assert (existsb (λ kr, blocks acc p cin cout kr.1 kr.2) (map_to_list reqs) = true)
    as Ht; [|congruence].
  apply existsb_exists. exists (k, ar). split; [|done].
  apply list_elem_of_In, elem_of_map_to_list, Hk.
Qed.

Lemma exists_blocking_true reqs acc p cin cout :
  exists_blocking reqs acc p cin cout = true →
  ∃ k ar, reqs !! k = Some ar ∧ blocks acc p cin cout k ar = true.
Proof.
  unfold exists_blocking. intros [[k ar] [Hin Hb]]%existsb_exists.
  exists k, ar. split; [|done].
  by apply elem_of_map_to_list, list_elem_of_In.
Qed.

(** A row that does not block either is not an approved occupant of the
    accommodation, or is the request itself, or lies outside the range. *)
Lemma blocks_false_no_overlap acc p cin cout k ar :
  blocks acc p cin cout k ar = false →
  Req.AssignedAccommodationID ar = Some acc →
  Req.Status ar = Req.Approved →
  k ≠ p →
  ¬ overlap cin cout (Req.CheckInDate ar) (Req.CheckOutDate ar).
Proof.
  unfold blocks, overlap. intros Hb Ha Hs Hk [H1 H2].
  rewrite !bool_decide_eq_true_2 in Hb by done. simpl in Hb.
  apply andb_false_iff in Hb as [Hb|Hb].
  - apply Z.ltb_ge in Hb. lia.
  - rewrite Z.gtb_ltb in Hb. apply Z.ltb_ge in Hb. lia.
Qed.

Lemma insert_by_capacity_perm a l : insert_by_capacity a l ≡ₚ a :: l.
Proof.
  induction l as [|b l IH]; simpl; [done|].
  destruct (Acc.Capacity a <=? Acc.Capacity b); [done|].
  rewrite IH. apply Permutation_swap.
Qed.

Lemma order_by_capacity_perm l : order_by_capacity l ≡ₚ l.
Proof.
  induction l as [|b l IH]; simpl; [done|].
  rewrite insert_by_capacity_perm. by rewrite IH.
Qed.

Lemma select_candidate_elem db p cin cout n a :
  select_candidate db p cin cout n = Some a →
  a ∈ tblAccommodations db ∧
  candidate (tblAccommodationRequests db) p cin cout n a = true.
Proof.
  unfold select_candidate. intros Hh.
  apply head_Some_elem_of in Hh.
  rewrite order_by_capacity_perm in Hh.
  apply list_elem_of_In, filter_In in Hh as [Hin Hc].
  split; [by apply list_elem_of_In|done].
Qed.

Lemma select_candidate_unblocked db p cin cout n a k ar :
  select_candidate db p cin cout n = Some a →
  tblAccommodationRequests db !! k = Some ar →
  blocks (Acc.AccommodationID a) p cin cout k ar = false.
Proof.
  intros [_ Hc]%select_candidate_elem Hk.
  unfold candidate in Hc. apply andb_true_iff in Hc as [_ Hc].
  apply negb_true_iff in Hc. eauto using exists_blocking_false.
Qed.

End allocation.

Section allocation_invariant.
Implicit Types (reqs : gmap Z Req.row) (db : lodging) (a : Acc.row).

Lemma no_double_booking_b_sound reqs :
  no_double_booking_b reqs = true → no_double_booking reqs.
Proof.
  unfold no_double_booking_b, no_double_booking.
  intros Hall i j r1 r2 acc Hi Hj Hne S1 S2 A1 A2 [O1 O2].
  rewrite forallb_forall in Hall.
  specialize (Hall (i, r1)). rewrite forallb_forall in Hall.
  assert (negb (double_booked i r1 j r2) = true) as Hn.
  { apply (Hall ltac:(by apply list_elem_of_In, elem_of_map_to_list) (j, r2)).
    by apply list_elem_of_In, elem_of_map_to_list. }
  apply negb_true_iff in Hn. unfold double_booked in Hn.
  rewrite !bool_decide_eq_true_2 in Hn; [|congruence|by rewrite A1|done..].
  simpl in Hn. apply andb_false_iff in Hn as [Hn|Hn]; apply Z.ltb_ge in Hn; lia.
Qed.

Lemma overlap_sym (a b c d : Z) : overlap a b c d ↔ overlap c d a b.
Proof. unfold overlap. lia. Qed.

(** Approving request [p] into an accommodation that no other approved
    request blocks keeps the table free of double bookings. *)
Lemma approve_keeps_no_double_booking reqs (p : Z) (r : Req.row) (acc : Z) :
  no_double_booking reqs →
  reqs !! p = Some r →
  (∀ k ar, reqs !! k = Some ar →
     blocks acc p (Req.CheckInDate r) (Req.CheckOutDate r) k ar = false) →
  no_double_booking (<[p := approve r acc]> reqs).
Proof.
  intros Hinv Hp Hfree i j r1 r2 acc' Hi Hj Hne S1 S2 A1 A2.
  rewrite lookup_insert in Hi. rewrite lookup_insert in Hj.
  destruct (decide (p = i)) as [Ei|Ei], (decide (p = j)) as [Ej|Ej];
    simplify_eq/=.
  - eapply blocks_false_no_overlap; eauto.
  - rewrite overlap_sym. eapply blocks_false_no_overlap; eauto.
  - eauto.
Qed.

Lemma reject_keeps_no_double_booking reqs (p : Z) (r : Req.row) :
  no_double_booking reqs →
  no_double_booking (<[p := reject r]> reqs).
Proof.
  intros Hinv i j r1 r2 acc' Hi Hj Hne S1 S2 A1 A2.
  rewrite lookup_insert in Hi. rewrite lookup_insert in Hj.
  destruct (decide (p = i)) as [Ei|Ei], (decide (p = j)) as [Ej|Ej];
    simplify_eq/=.
  eauto.
Qed.

(** C1.  [AssignAccommodation] keeps the allocation invariant: if no two
    distinct [Approved] requests of one accommodation have overlapping
    [[CheckInDate, CheckOutDate)] ranges before the call, none have after
    it; and whenever the call approves request [p] into accommodation [acc],
    no other [Approved] request assigned to [acc] overlaps the range of [p],
    whatever the head counts are. *)
Theorem AssignAccommodation_no_overlap (db : lodging) (p : Z)
    (Hinv : no_double_booking (tblAccommodationRequests db)) :
  no_double_booking (tblAccommodationRequests (out_db (AssignAccommodation p db)))
  ∧ approves_without_overlap db p.
Proof.
  unfold approves_without_overlap, AssignAccommodation.
  destruct (tblAccommodationRequests db !! p) as [r|] eqn:Hp; simpl.
  2: { split; [done|]. intros; simplify_eq. }
  case_bool_decide as Hst; simpl.
  { split; [done|]. intros r0 acc [= <-] Hpend. congruence. }
  destruct (select_candidate db p _ _ _) as [a|] eqn:Hsel; simpl.
  - assert (∀ k ar, tblAccommodationRequests db !! k = Some ar →
              blocks (Acc.AccommodationID a) p (Req.CheckInDate r)
                (Req.CheckOutDate r) k ar = false) as Hfree
      by eauto using select_candidate_unblocked.
    split; [by apply approve_keeps_no_double_booking|].
    intros r0 acc [= <-] _ Hacc j r2 Hj Hr2 S2 A2.
    unfold approved_into in Hacc. rewrite lookup_insert_eq in Hacc.
    simpl in Hacc. simplify_eq.
    rewrite lookup_insert_ne in Hr2 by done.
    eapply blocks_false_no_overlap; eauto.
  - split; [by apply reject_keeps_no_double_booking|].
    intros r0 acc _ _ Hacc. unfold approved_into in Hacc.
    rewrite lookup_insert_eq in Hacc. by simpl in Hacc.
Qed.

Lemma AssignAccommodation_no_overlap_witness :
  no_double_booking (tblAccommodationRequests guest_house_and_hostel) ∧
  approved_into
    (tblAccommodationRequests (out_db (AssignAccommodation 2 guest_house_and_hostel)))
    2 = Some 2 ∧
  no_double_booking
    (tblAccommodationRequests (out_db (AssignAccommodation 2 guest_house_and_hostel))) ∧
  approves_without_overlap guest_house_and_hostel 2.
Proof.
  split; [by apply no_double_booking_b_sound; vm_compute|].
  split; [by vm_compute|].
  apply (AssignAccommodation_no_overlap guest_house_and_hostel 2).
  by apply no_double_booking_b_sound; vm_compute.
Defined.

(** Scenario B of the specification: the only accommodation is occupied in an
    overlapping window, so the one-person request is rejected although the
    accommodation has room for it by head count. *)
Example scenario_B_rejected :
  let out := AssignAccommodation 2 guest_house_only in
  p_Success out = false ∧
  (Req.Status <$> tblAccommodationRequests (out_db out) !! 2) = Some Req.Rejected ∧
  p_Message out = "Failure: No suitable accommodation found for request ID 2.".
Proof. by vm_compute. Qed.

End allocation_invariant.

(** ** The order of the candidate query *)

Section allocation_order.
Implicit Types (reqs : gmap Z Req.row) (l : list Acc.row).

Lemma insert_by_capacity_sorted (a : Acc.row) l :
  StronglySorted cap_le l → StronglySorted cap_le (insert_by_capacity a l).
Proof.
  induction 1 as [|b l Hs IH Hb]; simpl.
  - repeat constructor.
  - destruct (Acc.Capacity a <=? Acc.Capacity b) eqn:Hab.
    + apply Z.leb_le in Hab. constructor; [by constructor|].
      constructor; [done|].
      eapply Forall_impl; [exact Hb|]. unfold cap_le. intros; lia.
    + apply Z.leb_gt in Hab. constructor; [done|].
      rewrite insert_by_capacity_perm. constructor; [|done].
      unfold cap_le. lia.
Qed.

Lemma order_by_capacity_sorted l : StronglySorted cap_le (order_by_capacity l).
Proof.
  induction l; simpl; [constructor|by apply insert_by_capacity_sorted].
Qed.

(** [LIMIT 1] after [ORDER BY Capacity ASC] is a row of least capacity. *)
Lemma head_order_by_capacity_least l (a b : Acc.row) :
  head (order_by_capacity l) = Some a → b ∈ l → cap_le a b.
Proof.
  intros Hh Hb. pose proof (order_by_capacity_sorted l) as Hs.
  rewrite <- (order_by_capacity_perm l) in Hb.
  destruct (order_by_capacity l) as [|x t]; simplify_eq/=.
  apply StronglySorted_inv in Hs as [_ Hall].
  apply elem_of_cons in Hb as [->|Hb]; [unfold cap_le; lia|].
  by eapply Forall_forall in Hall.
Qed.

Lemma head_order_by_capacity_None l :
  head (order_by_capacity l) = None → l = [].
Proof.
  intros Hh. apply Permutation_nil. rewrite <- (order_by_capacity_perm l).
  by destruct (order_by_capacity l).
Qed.

Lemma select_candidate_least (db : lodging) (p cin cout n : Z) (a b : Acc.row) :
  select_candidate db p cin cout n = Some a →
  b ∈ tblAccommodations db →
  candidate (tblAccommodationRequests db) p cin cout n b = true →
  Acc.Capacity a ≤ Acc.Capacity b.
Proof.
  unfold select_candidate. intros Hh Hb Hc.
  eapply head_order_by_capacity_least; [exact Hh|].
  apply list_elem_of_In, filter_In. split; [by apply list_elem_of_In|done].
Qed.

Lemma select_candidate_None (db : lodging) (p cin cout n : Z) (b : Acc.row) :
  select_candidate db p cin cout n = None →
  b ∈ tblAccommodations db →
  candidate (tblAccommodationRequests db) p cin cout n b = false.
Proof.
  unfold select_candidate. intros Hh%head_order_by_capacity_None Hb.
  destruct (candidate _ p cin cout n b) eqn:Hc; [|done].
  assert (In b (List.filter (candidate (tblAccommodationRequests db) p cin cout n)
                  (tblAccommodations db))) as Hin.
  { apply filter_In. split; [by apply list_elem_of_In|done]. }
  rewrite Hh in Hin. destruct Hin.
Qed.

Lemma selection_agrees_perm
    (accs accs' : list Acc.row) (reqs : gmap Z Req.row) (p cin cout n : Z) :
  accs ≡ₚ accs' → selection_agrees accs accs' reqs p cin cout n.
Proof.
  intros Hperm. unfold selection_agrees.
  set (db := {| tblAccommodations := accs; tblAccommodationRequests := reqs |}).
  set (db' := {| tblAccommodations := accs'; tblAccommodationRequests := reqs |}).
  destruct (select_candidate db p cin cout n) as [a|] eqn:Ha,
           (select_candidate db' p cin cout n) as [a'|] eqn:Ha'.
  - destruct (select_candidate_elem _ _ _ _ _ _ Ha) as [Hin Hc].
    destruct (select_candidate_elem _ _ _ _ _ _ Ha') as [Hin' Hc'].
    simpl in *. rewrite <- Hperm in Hin'.
    assert (Acc.Capacity a ≤ Acc.Capacity a') as H1
      by (eapply (select_candidate_least db); eauto).
    assert (Acc.Capacity a' ≤ Acc.Capacity a) as H2.
    { eapply (select_candidate_least db'); eauto. simpl. by rewrite <- Hperm. }
    repeat split; try done.
    + intros b Hb Hcb. by eapply (select_candidate_least db).
    + lia.
    + intros Huniq. apply Huniq; [done..|lia].
  - destruct (select_candidate_elem _ _ _ _ _ _ Ha) as [Hin Hc]. simpl in *.
    pose proof (select_candidate_None db' p cin cout n a Ha') as Hn.
    simpl in Hn. rewrite Hn in Hc; [done|]. by rewrite <- Hperm.
  - destruct (select_candidate_elem _ _ _ _ _ _ Ha') as [Hin Hc]. simpl in *.
    pose proof (select_candidate_None db p cin cout n a' Ha) as Hn.
    simpl in Hn. rewrite Hn in Hc; [done|]. by rewrite Hperm.
  - intros b Hb. by apply (select_candidate_None db).
Qed.

(** On a pending request the procedure assigns what its query selects. *)
Lemma assigned_by_pending (db : lodging) (p : Z) (r : Req.row) :
  tblAccommodationRequests db !! p = Some r →
  Req.Status r = Req.Pending →
  assigned_by db p
    = Acc.AccommodationID <$> select_candidate db p (Req.CheckInDate r)
                                (Req.CheckOutDate r) (Req.NumberOfPeople r)
  ∧ (is_Some (assigned_by db p) ↔ p_Success (AssignAccommodation p db) = true).
Proof.
  intros Hp Hs. unfold assigned_by, approved_into, AssignAccommodation.
  rewrite Hp. rewrite bool_decide_eq_false_2 by (by intros ?).
  destruct (select_candidate db p _ _ _) as [a|]; simpl;
    rewrite lookup_insert_eq; simpl.
  - split; [done|]. split; [done|]. by eexists.
  - split; [done|]. split; [by intros [? ?]|done].
Qed.

(** C5, as the code has it.  [AssignAccommodation] on a pending request is
    a function of the snapshot and of the order in which [Accommodations]
    delivers its rows.  For two row orders of one snapshot it rejects in both
    or assigns in both; the assigned row passes the capacity, availability
    and overlap filters and has the least capacity among the rows that do;
    the two assigned rows have the same capacity, and they are the same row
    when no other surviving row shares that capacity. *)
Theorem AssignAccommodation_least_capacity_any_row_order
    (accs accs' : list Acc.row) (reqs : gmap Z Req.row) (p : Z)
    (Hperm : accs ≡ₚ accs') :
  allocation_agrees accs accs' reqs p.
Proof.
  intros r Hp Hs db db'.
  destruct (assigned_by_pending db p r Hp Hs) as [H1 H2].
  destruct (assigned_by_pending db' p r Hp Hs) as [H1' _].
  repeat split; try done; try apply H2.
  by apply selection_agrees_perm.
Qed.

Lemma AssignAccommodation_least_capacity_any_row_order_witness :
  [guest_house; hostel_block] ≡ₚ [hostel_block; guest_house] ∧
  allocation_agrees [guest_house; hostel_block] [hostel_block; guest_house]
    fresh_request 7 ∧
  assigned_by {| tblAccommodations := [guest_house; hostel_block];
                 tblAccommodationRequests := fresh_request |} 7 = Some 1 ∧
  assigned_by {| tblAccommodations := [hostel_block; guest_house];
                 tblAccommodationRequests := fresh_request |} 7 = Some 1.
Proof.
  assert ([guest_house; hostel_block] ≡ₚ [hostel_block; guest_house]) as Hperm
    by apply Permutation_swap.
  split; [exact Hperm|].
  split; [|split; by vm_compute].
  exact (AssignAccommodation_least_capacity_any_row_order
           _ _ fresh_request 7 Hperm).
Defined.

(** C5 as stated fails: the query has no second sort key, so with two
    surviving rows of equal capacity the selected accommodation follows the
    row order of the table. *)
Lemma AssignAccommodation_tie_follows_row_order :
  tblAccommodations guest_house_first ≡ₚ tblAccommodations annex_first ∧
  tblAccommodationRequests guest_house_first = tblAccommodationRequests annex_first ∧
  Acc.Capacity guest_house = Acc.Capacity annex ∧
  assigned_by guest_house_first 7 = Some 1 ∧
  assigned_by annex_first 7 = Some 3.
Proof.
  split; [apply Permutation_swap|]. by vm_compute.
Qed.

End allocation_order.

(** ** Keys handed out by [AUTO_INCREMENT] *)

Lemma auto_increment_above {A} (m : gmap Z A) (k : Z) (x : A) :
  m !! k = Some x → k < auto_increment m.
Proof.
  unfold auto_increment. revert k x.
  apply (map_fold_weak_ind (λ next m, ∀ k x, m !! k = Some x → k < next)).
  - intros k x. by rewrite lookup_empty.
  - intros i y m' next _ IH k x. rewrite lookup_insert.
    case_decide as Hi; [intros _; lia|].
    intros Hk. specialize (IH k x Hk). lia.
Qed.

Lemma auto_increment_fresh {A} (m : gmap Z A) : m !! auto_increment m = None.
Proof.
  destruct (m !! auto_increment m) as [x|] eqn:Hx; [|done].
  apply auto_increment_above in Hx. lia.
Qed.

(** ** Payment reconciliation *)

Section payments.
Implicit Types (db : database) (p OLD NEW : Pay.row) (r : Reg.row).

Lemma validate_insert_spec NEW :
  (one_target NEW ∧ validate_payment_relation_on_insert NEW = SqlOk ())
  ∨ (¬ one_target NEW ∧ sql_rejected (validate_payment_relation_on_insert NEW)).
Proof.
  unfold validate_payment_relation_on_insert, one_target.
  destruct (Pay.RelatedRegistrationID NEW), (Pay.RelatedContractID NEW);
    simpl; [right|left|left|right]; (split; [|done]);
    first [ intros [[? ?]|[? ?]]; congruence
          | left; split; congruence
          | right; split; congruence ].
Qed.

Lemma validate_update_spec NEW :
  (one_target NEW ∧ validate_payment_relation_on_update NEW = SqlOk ())
  ∨ (¬ one_target NEW ∧ sql_rejected (validate_payment_relation_on_update NEW)).
Proof. apply validate_insert_spec. Qed.

Lemma ConfirmRegistrationOnPayment_payments OLD NEW db :
  tblPayments (ConfirmRegistrationOnPayment OLD NEW db) = tblPayments db.
Proof.
  unfold ConfirmRegistrationOnPayment.
  destruct (confirmation_fires OLD NEW); [|done].
  by destruct (Pay.RelatedRegistrationID NEW).
Qed.

Lemma insert_payment_rejects NEW db :
  ¬ one_target NEW →
  sql_rejected (insert_payment NEW db) ∧ after_insert_payment NEW db = db.
Proof.
  intros Hbad. unfold after_insert_payment, insert_payment.
  destruct (validate_insert_spec NEW) as [[? _]|[_ Hrej]]; [done|].
  by destruct (validate_payment_relation_on_insert NEW).
Qed.

Lemma update_payment_rejects pid set OLD db :
  tblPayments db !! pid = Some OLD →
  ¬ one_target (set OLD) →
  sql_rejected (update_payment pid set db) ∧ after_update_payment pid set db = db.
Proof.
  intros Hold Hbad. unfold after_update_payment, update_payment. rewrite Hold.
  destruct (validate_update_spec (set OLD)) as [[? _]|[_ Hrej]]; [done|].
  by destruct (validate_payment_relation_on_update (set OLD)).
Qed.

Lemma after_insert_payment_one_target NEW db :
  map_Forall (λ _ p, one_target p) (tblPayments db) →
  map_Forall (λ _ p, one_target p) (tblPayments (after_insert_payment NEW db)).
Proof.
  intros Hinv. unfold after_insert_payment, insert_payment.
  destruct (validate_insert_spec NEW) as [[Hok ->]|[_ Hrej]]; simpl.
  - destruct (check_payment_amount NEW) as [[]|]; simpl; [|done].
    by apply map_Forall_insert_2.
  - by destruct (validate_payment_relation_on_insert NEW).
Qed.

Lemma after_update_payment_one_target pid set db :
  map_Forall (λ _ p, one_target p) (tblPayments db) →
  map_Forall (λ _ p, one_target p) (tblPayments (after_update_payment pid set db)).
Proof.
  intros Hinv. unfold after_update_payment, update_payment.
  destruct (tblPayments db !! pid) as [OLD|] eqn:Hold; [|done].
  destruct (validate_update_spec (set OLD)) as [[Hok ->]|[_ Hrej]]; simpl.
  - destruct (check_payment_amount (set OLD)) as [[]|]; simpl; [|done].
    rewrite ConfirmRegistrationOnPayment_payments. simpl.
    by apply map_Forall_insert_2.
  - by destruct (validate_payment_relation_on_update (set OLD)).
Qed.

Lemma payments_reachable_one_target db :
  payments_reachable db → map_Forall (λ _ p, one_target p) (tblPayments db).
Proof.
  induction 1 as [db Hempty|db NEW _ IH|db pid set _ IH].
  - rewrite Hempty. apply map_Forall_empty.
  - by apply after_insert_payment_one_target.
  - by apply after_update_payment_one_target.
Qed.

(** C3.  In every state reached by inserts and updates of payments, accepted
    or rejected, each payment has exactly one of [RelatedRegistrationID] and
    [RelatedContractID]; an insert or an update whose new row has both or
    neither is rejected, and the rejected update leaves the row as it was,
    with exactly one target. *)
Theorem payments_exactly_one_target (db : database)
    (Hreach : payments_reachable db) :
  map_Forall (λ _ p, one_target p) (tblPayments db) ∧ rejects_bad_targets db.
Proof.
  pose proof (payments_reachable_one_target db Hreach) as Hinv.
  split; [done|]. split.
  - intros NEW Hbad. by apply insert_payment_rejects.
  - intros pid set OLD Hold Hbad.
    destruct (update_payment_rejects pid set OLD db Hold Hbad) as [Hrej Heq].
    repeat split; [done..|by rewrite Heq|by eapply Hinv].
Qed.

Lemma payments_exactly_one_target_witness :
  payments_reachable (after_update_payment 1 clear_targets scenario_C)
  ∧ tblPayments (after_update_payment 1 clear_targets scenario_C) !! 1
    = Some payment_alice
  ∧ map_Forall (λ _ p, one_target p)
      (tblPayments (after_update_payment 1 clear_targets scenario_C))
  ∧ rejects_bad_targets (after_update_payment 1 clear_targets scenario_C).
Proof.
  assert (payments_reachable (after_update_payment 1 clear_targets scenario_C))
    as Hreach.
  { apply reach_update, reach_insert, reach_empty. reflexivity. }
  split; [exact Hreach|]. split; [by vm_compute|].
  exact (payments_exactly_one_target _ Hreach).
Defined.

Lemma confirm_registration_lookup (regs : gmap Z Reg.row) (rid k : Z) :
  confirm_registration rid regs !! k =
    if decide (k = rid) then
      (λ r, if bool_decide (Reg.Status r = Reg.pending)
               || bool_decide (Reg.Status r = Reg.waitlisted)
            then confirm_paid r else r) <$> regs !! rid
    else regs !! k.
Proof.
  unfold confirm_registration.
  destruct (decide (k = rid)) as [->|Hk].
  - destruct (regs !! rid) as [r|] eqn:Hr; simpl; [|done].
    destruct (bool_decide _ || bool_decide _); [|done].
    by rewrite lookup_insert_eq.
  - destruct (regs !! rid) as [r|]; [|done].
    destruct (bool_decide _ || bool_decide _); [|done].
    by rewrite lookup_insert_ne.
Qed.

(** C2.  An update of a payment whose status goes from a value other than
    [completed] to [completed] and whose new row targets registration [rid]
    succeeds.  When that registration is [pending] or [waitlisted], its row
    afterwards has status [confirmed] and payment status [paid] and is
    otherwise as before; in any other status (such as [cancelled] or
    [checked_in]) the row stays entirely as it is.  No other registration
    changes. *)
Theorem completion_confirms_pending_or_waitlisted
    (db : database) (pid : Z) (set : Pay.row → Pay.row) (OLD : Pay.row)
    (rid : Z) (r : Reg.row)
    (Hold : tblPayments db !! pid = Some OLD)
    (Hfrom : Pay.Status OLD ≠ Pay.completed)
    (Hto : Pay.Status (set OLD) = Pay.completed)
    (Hrid : Pay.RelatedRegistrationID (set OLD) = Some rid)
    (Hcid : Pay.RelatedContractID (set OLD) = None)
    (Hamt : 0 < Pay.Amount (set OLD))
    (Hreg : tblRegistrations db !! rid = Some r) :
  ∃ db', update_payment pid set db = SqlOk db'
         ∧ completion_effect db db' pid (set OLD) rid r.
Proof.
  unfold update_payment. rewrite Hold. simpl.
  unfold validate_payment_relation_on_update. rewrite Hrid, Hcid. simpl.
  unfold check_payment_amount.
  assert ((Pay.Amount (set OLD) >? 0) = true) as -> by (apply Z.gtb_lt; lia).
  simpl. eexists. split; [done|].
  unfold completion_effect, ConfirmRegistrationOnPayment, confirmation_fires.
  rewrite Hrid. rewrite !bool_decide_eq_true_2 by done. simpl.
  split; [done|].
  repeat split.
  - intros Hs. rewrite confirm_registration_lookup, decide_True by done.
    rewrite Hreg. simpl.
    exists {| Reg.UserID := Reg.UserID r; Reg.EventID := Reg.EventID r;
              Reg.TeamID := Reg.TeamID r;
              Reg.RegistrationDate := Reg.RegistrationDate r;
              Reg.Status := Reg.confirmed; Reg.PaymentStatus := Reg.paid;
              Reg.SpecialRequirements := Reg.SpecialRequirements r |}.
    split; [by destruct Hs as [-> | ->]|by repeat split].
  - intros Hs. rewrite confirm_registration_lookup, decide_True by done.
    rewrite Hreg. simpl.
    rewrite !bool_decide_eq_false_2; [done|tauto..].
  - intros k Hk. by rewrite confirm_registration_lookup, decide_False.
Qed.

Lemma completion_confirms_pending_or_waitlisted_witness :
  ∃ db', completePayment 1 scenario_C = SqlOk db'
         ∧ completion_effect scenario_C db' 1 (set_completed payment_alice)
             1 registration_alice.
Proof.
  apply (completion_confirms_pending_or_waitlisted
           scenario_C 1 set_completed payment_alice 1 registration_alice);
    by vm_compute.
Defined.

(** Scenario C of the specification, and the same completion against a
    cancelled registration. *)
Example scenario_C_confirmed :
  Reg.Status registration_alice = Reg.pending
  ∧ Reg.PaymentStatus registration_alice = Reg.pay_pending
  ∧ (db' ← completePayment 1 scenario_C;
     SqlOk ((λ r, (Reg.Status r, Reg.PaymentStatus r))
              <$> tblRegistrations db' !! 1))
    = SqlOk (Some (Reg.confirmed, Reg.paid)).
Proof. by vm_compute. Qed.

Example cancelled_not_resurrected :
  (db' ← completePayment 2 scenario_cancelled; SqlOk (tblRegistrations db' !! 2))
  = SqlOk (Some registration_bob_cancelled).
Proof. by vm_compute. Qed.

Lemma set_completed_idemp p : set_completed (set_completed p) = set_completed p.
Proof. done. Qed.

Lemma with_Payments_same db : with_Payments db (tblPayments db) = db.
Proof. by destruct db. Qed.

(** Completing a payment that is completed and valid changes nothing. *)
Lemma completePayment_completed db pid p :
  tblPayments db !! pid = Some p →
  Pay.Status p = Pay.completed →
  one_target p →
  0 < Pay.Amount p →
  completePayment pid db = SqlOk db.
Proof.
  intros Hp Hs Ht Ha. unfold completePayment, update_payment. rewrite Hp. simpl.
  assert (set_completed p = p) as -> by (destruct p; simpl in *; by subst).
  destruct (validate_update_spec p) as [[_ ->]|[? _]]; [|done]. simpl.
  unfold check_payment_amount.
  assert ((Pay.Amount p >? 0) = true) as -> by (apply Z.gtb_lt; lia). simpl.
  unfold ConfirmRegistrationOnPayment, confirmation_fires.
  rewrite bool_decide_eq_false_2 by (intros ?; done). simpl.
  by rewrite insert_id, with_Payments_same.
Qed.

(** After a completion that succeeded, the payment is completed and valid. *)
Lemma completePayment_post db pid db' :
  completePayment pid db = SqlOk db' →
  match tblPayments db' !! pid with
  | Some p => Pay.Status p = Pay.completed ∧ one_target p ∧ 0 < Pay.Amount p
  | None => db' = db
  end.
Proof.
  unfold completePayment, update_payment.
  destruct (tblPayments db !! pid) as [OLD|] eqn:Hold.
  2: { intros [= <-]. by rewrite Hold. }
  simpl. destruct (validate_update_spec (set_completed OLD)) as [[Ht ->]|[_ Hrej]].
  2: { by destruct (validate_payment_relation_on_update _). }
  simpl. unfold check_payment_amount.
  destruct (Pay.Amount (set_completed OLD) >? 0) eqn:Ha; [|done].
  simpl. intros [= <-].
  rewrite ConfirmRegistrationOnPayment_payments. simpl.
  rewrite lookup_insert_eq. repeat split; [done|]. by apply Z.gtb_lt.
Qed.

Lemma completePayment_twice db pid db' :
  completePayment pid db = SqlOk db' → completePayment pid db' = SqlOk db'.
Proof.
  intros H. pose proof (completePayment_post _ _ _ H) as Hpost.
  destruct (tblPayments db' !! pid) as [p|] eqn:Hp.
  - destruct Hpost as (? & ? & ?). by eapply completePayment_completed.
  - subst db'. unfold completePayment, update_payment. by rewrite Hp.
Qed.

(** C4.  Completing the same payment [n + 1] times in a row has the result
    of completing it once: the same database, payments and registrations
    alike, or the same rejection.  On a payment that is completed already
    (and has its one target and a positive amount, as every stored payment
    has) the completion succeeds and changes nothing; and once a completion
    has succeeded the condition of the confirmation trigger is false for any
    further completion of that payment. *)
Theorem completePayment_idempotent (db : database) (pid : Z) (n : nat) :
  completePayment_times (S n) pid db = completePayment pid db
  ∧ (∀ p, tblPayments db !! pid = Some p →
          Pay.Status p = Pay.completed → one_target p → 0 < Pay.Amount p →
          completePayment pid db = SqlOk db)
  ∧ (∀ db' p', completePayment pid db = SqlOk db' →
               tblPayments db' !! pid = Some p' →
               confirmation_fires p' (set_completed p') = false).
Proof.
  split; [|split].
  - induction n as [|n IH]; simpl in *.
    + by destruct (completePayment pid db).
    + destruct (completePayment pid db) as [db'|] eqn:H; [|done]. simpl in *.
      by rewrite (completePayment_twice _ _ _ H).
  - intros p. apply completePayment_completed.
  - intros db' p' H Hp'. pose proof (completePayment_post _ _ _ H) as Hpost.
    rewrite Hp' in Hpost. destruct Hpost as (Hs & _ & _).
    unfold confirmation_fires. by rewrite bool_decide_eq_false_2 by (by intros ?).
Qed.

(** Scenario C, second call: nothing changes. *)
Example scenario_C_second_call :
  (db' ← completePayment 1 scenario_C; completePayment 1 db')
  = completePayment 1 scenario_C.
Proof. by vm_compute. Qed.

End payments.

(** ** Event registration *)

Section registration.
Implicit Types (db : database) (regs : gmap Z Reg.row) (r NEW : Reg.row).

Lemma registrations_of_found (e u : Z) regs (k : Z) r :
  regs !! k = Some r → Reg.EventID r = e → Reg.UserID r = u →
  (0 < size (registrations_of e u regs))%nat.
Proof.
  intros Hk He Hu.
  assert (registrations_of e u regs !! k = Some r) as Hf.
  { unfold registrations_of. apply map_lookup_filter_Some. by split. }
  destruct (size (registrations_of e u regs)) eqn:Hsz; [|lia].
  apply map_size_empty_iff in Hsz. rewrite Hsz in Hf.
  by rewrite lookup_empty in Hf.
Qed.

Lemma registrations_of_absent (e u : Z) regs (k : Z) r :
  ¬ (0 < size (registrations_of e u regs))%nat →
  regs !! k = Some r → ¬ (Reg.EventID r = e ∧ Reg.UserID r = u).
Proof.
  intros Hsz Hk [He Hu]. apply Hsz. by eapply registrations_of_found.
Qed.

Lemma one_registration_per_user_event_b_sound regs :
  one_registration_per_user_event_b regs = true →
  one_registration_per_user_event regs.
Proof.
  unfold one_registration_per_user_event_b. intros Hall i j r1 r2 Hi Hj Hu He.
  rewrite forallb_forall in Hall.
  specialize (Hall (i, r1)). rewrite forallb_forall in Hall.
  assert (bool_decide (Reg.UserID r1 = Reg.UserID r2 ∧ Reg.EventID r1 = Reg.EventID r2
                       → i = j) = true) as Hb.
  { apply (Hall ltac:(by apply list_elem_of_In, elem_of_map_to_list) (j, r2)).
    by apply list_elem_of_In, elem_of_map_to_list. }
  apply bool_decide_eq_true in Hb. by apply Hb.
Qed.

(** The unique key at work: an accepted insert keeps the pairs unique. *)
Lemma insert_registration_unique NEW db db' (id : Z) :
  one_registration_per_user_event (tblRegistrations db) →
  insert_registration NEW db = SqlOk (db', id) →
  one_registration_per_user_event (tblRegistrations db').
Proof.
  unfold insert_registration. intros Huniq.
  case_bool_decide as Hsz; [done|].
  destruct (bool_decide _ || bool_decide _); [done|]. intros [= <- <-]. simpl.
  pose proof (auto_increment_fresh (tblRegistrations db)) as Hfresh.
  intros i j r1 r2 Hi Hj Hu He.
  rewrite lookup_insert in Hi. rewrite lookup_insert in Hj.
  destruct (decide (auto_increment (tblRegistrations db) = i)) as [Ei|Ei],
           (decide (auto_increment (tblRegistrations db) = j)) as [Ej|Ej];
    simplify_eq/=.
  - done.
  - exfalso. by eapply registrations_of_absent.
  - exfalso. by eapply registrations_of_absent.
  - eauto.
Qed.

Lemma post_registration_steps (now : Z) (u e : option Z) (s : option string) db :
  (post_registration now u e s db).1 = db
  ∨ ∃ NEW id, insert_registration NEW db
              = SqlOk ((post_registration now u e s db).1, id).
Proof.
  unfold post_registration. destruct u as [u|], e as [e|]; try by left.
  destruct (tblEvents db !! e); [|by left].
  case_bool_decide; [by left|].
  destruct (insert_registration _ db) as [[db' id]|] eqn:Hins; [|by left].
  right. eauto.
Qed.

Lemma post_api_registrations_steps (now : Z) (u e : option Z) db :
  (post_api_registrations now u e db).1 = db
  ∨ ∃ NEW id, insert_registration NEW db
              = SqlOk ((post_api_registrations now u e db).1, id).
Proof.
  unfold post_api_registrations. destruct u as [u|], e as [e|]; try by left.
  destruct (falsy _ || falsy _); [by left|].
  case_bool_decide; [by left|].
  destruct (tblEvents db !! e); [|by left].
  case_bool_decide; [by left|].
  destruct (insert_registration _ db) as [[db' id]|] eqn:Hins; [|by left].
  right. eauto.
Qed.

Lemma run_registration_call_unique db (c : registration_call) :
  one_registration_per_user_event (tblRegistrations db) →
  one_registration_per_user_event (tblRegistrations (run_registration_call db c)).
Proof.
  intros Huniq. destruct c as [now u e s|now u e]; simpl.
  - destruct (post_registration_steps now u e s db) as [->|(NEW & id & Hins)];
      eauto using insert_registration_unique.
  - destruct (post_api_registrations_steps now u e db) as [->|(NEW & id & Hins)];
      eauto using insert_registration_unique.
Qed.

Lemma duplicates_are_rejected db : duplicates_rejected db.
Proof.
  intros k r now special Hk [ev Hev].
  assert (0 < size (registrations_of (Reg.EventID r) (Reg.UserID r)
                      (tblRegistrations db)))%nat as Hsz
    by by eapply registrations_of_found.
  split.
  - unfold post_registration. rewrite Hev. by rewrite bool_decide_eq_true_2.
  - intros Hu Hu0 He0. unfold post_api_registrations, falsy.
    rewrite !bool_decide_eq_false_2 by (done || by intros ?). simpl.
    rewrite Hev. by rewrite bool_decide_eq_true_2.
Qed.

(** C6.  Starting from a table with at most one registration row for each
    pair of a user and an event, any sequence of calls of the two
    registration handlers leaves at most one row for each pair; and in any
    state a call for a pair that has a row is answered with the error
    "Already registered" and inserts nothing. *)
Theorem registrations_unique_per_user_event
    (db : database) (calls : list registration_call)
    (Huniq : one_registration_per_user_event (tblRegistrations db)) :
  one_registration_per_user_event
    (tblRegistrations (run_registration_calls calls db))
  ∧ duplicates_rejected (run_registration_calls calls db).
Proof.
  split; [|apply duplicates_are_rejected].
  unfold run_registration_calls. revert db Huniq.
  induction calls as [|c calls IH]; intros db Huniq; simpl; [done|].
  apply IH. by apply run_registration_call_unique.
Qed.

Example duplicate_registration_rejected :
  post_registration 50 (Some 1) (Some 1) None no_payments
  = (no_payments, Render 400 "Already registered")
  ∧ post_api_registrations 50 (Some 1) (Some 1) no_payments
    = (no_payments, Json 400 "Already registered").
Proof. split; by vm_compute. Qed.

(** Without a user in the session the form answers 500 and stores
    nothing. *)
Example registration_form_without_session_user :
  post_registration 50 None (Some 2) None no_payments
  = (no_payments, Render 500 "Registration failed").
Proof. done. Qed.

Lemma registrations_unique_per_user_event_witness :
  one_registration_per_user_event (tblRegistrations no_payments)
  ∧ size (tblRegistrations
            (run_registration_calls sample_registration_calls no_payments)) = 3%nat
  ∧ one_registration_per_user_event
      (tblRegistrations (run_registration_calls sample_registration_calls no_payments))
  ∧ duplicates_rejected (run_registration_calls sample_registration_calls no_payments).
Proof.
  assert (one_registration_per_user_event (tblRegistrations no_payments)) as Huniq
    by by apply one_registration_per_user_event_b_sound; vm_compute.
  split; [exact Huniq|]. split; [by vm_compute|].
  exact (registrations_unique_per_user_event
           no_payments sample_registration_calls Huniq).
Defined.

End registration.

(** ** What the registration handlers store *)

Section registration_rows.
Implicit Types (db : database) (r : Reg.row).

(** A call that finds the event and no row for the pair stores the row
    [new_registration], whatever the event's fee and deadline and whatever
    the time of the call. *)
Lemma post_registration_accepts (now u e : Z) (special : option string) db
    (ev : Events.row) :
  u ∈ tblUsers db →
  tblEvents db !! e = Some ev →
  ¬ (0 < size (registrations_of e u (tblRegistrations db)))%nat →
  let id := auto_increment (tblRegistrations db) in
  post_registration now (Some u) (Some e) special db
  = (with_Registrations db
       (<[id := new_registration now u e (or_null special)]> (tblRegistrations db)),
     Redirect ("/registration/success?id=" +:+ pretty id)).
Proof.
  intros Hin Hev Hnone. unfold post_registration, insert_registration.
  rewrite Hev. simpl.
  rewrite (bool_decide_eq_false_2 _ Hnone).
  rewrite (bool_decide_eq_false_2 (u ∉ tblUsers db)) by (by intros ?).
  by rewrite (bool_decide_eq_false_2 (tblEvents db !! e = None)) by congruence.
Qed.

Lemma post_api_registrations_accepts (now u e : Z) db (ev : Events.row) :
  u ≠ 0 → e ≠ 0 → u ∈ tblUsers db →
  tblEvents db !! e = Some ev →
  ¬ (0 < size (registrations_of e u (tblRegistrations db)))%nat →
  post_api_registrations now (Some u) (Some e) db
  = (with_Registrations db
       (<[auto_increment (tblRegistrations db) := new_registration now u e None]>
          (tblRegistrations db)),
     Json 201 "Registration successful").
Proof.
  intros Hu He Hin Hev Hnone. unfold post_api_registrations, insert_registration, falsy.
  rewrite !bool_decide_eq_false_2 by (done || by intros ?). simpl.
  rewrite Hev. simpl.
  by rewrite ?bool_decide_eq_false_2 by (done || congruence || by intros ?).
Qed.

(** C7, evaluated.  The event "Cultural Music Night" has fee [0]; both
    handlers accept the registration of user 3 and store it with status
    [pending] and payment status [pending], not [not_required]. *)
Theorem free_event_registration_stored_pending :
  (Events.Reg_Fee <$> tblEvents no_payments !! 2) = Some 0
  ∧ (post_registration 50 (Some 3) (Some 2) None no_payments).2
    = Redirect "/registration/success?id=3"
  ∧ registration_rows 3 2 (post_registration 50 (Some 3) (Some 2) None no_payments).1
    = [new_registration 50 3 2 None]
  ∧ (post_api_registrations 50 (Some 3) (Some 2) no_payments).2
    = Json 201 "Registration successful"
  ∧ registration_rows 3 2 (post_api_registrations 50 (Some 3) (Some 2) no_payments).1
    = [new_registration 50 3 2 None]
  ∧ Reg.Status (new_registration 50 3 2 None) = Reg.pending
  ∧ Reg.PaymentStatus (new_registration 50 3 2 None) = Reg.pay_pending
  ∧ Reg.PaymentStatus (new_registration 50 3 2 None) ≠ Reg.not_required.
Proof. repeat split; by vm_compute. Qed.

(** C8, evaluated.  The event "NASCON Programming Contest" closes
    registration at time [100]; at time [200] both handlers still accept
    the registration of user 3 and store a row. *)
Theorem registration_after_deadline_accepted :
  (Events.RegistrationDeadline <$> tblEvents no_payments !! 1) = Some (Some 100)
  ∧ (post_registration 200 (Some 3) (Some 1) None no_payments).2
    = Redirect "/registration/success?id=3"
  ∧ registration_rows 3 1 (post_registration 200 (Some 3) (Some 1) None no_payments).1
    = [new_registration 200 3 1 None]
  ∧ (post_api_registrations 200 (Some 3) (Some 1) no_payments).2
    = Json 201 "Registration successful"
  ∧ registration_rows 3 1 (post_api_registrations 200 (Some 3) (Some 1) no_payments).1
    = [new_registration 200 3 1 None].
Proof. repeat split; by vm_compute. Qed.

End registration_rows.

(** ** The registration payment handler *)

Section registration_payment.
Implicit Types (db : database).

Lemma insert_payment_keeps_registrations (NEW : Pay.row) db db1 (id : Z) :
  insert_payment NEW db = SqlOk (db1, id) →
  tblRegistrations db1 = tblRegistrations db.
Proof.
  unfold insert_payment.
  destruct (validate_payment_relation_on_insert NEW) as [[]|]; simpl; [|done].
  destruct (check_payment_amount NEW) as [[]|]; simpl; [|done].
  by intros [= <- <-].
Qed.

Lemma mark_paid_keeps_status (u e : Z) (regs : gmap Z Reg.row) (k : Z) :
  Reg.Status <$> mark_paid u e regs !! k = Reg.Status <$> regs !! k.
Proof.
  unfold mark_paid. rewrite lookup_fmap.
  destruct (regs !! k) as [r|]; simpl; [|done].
  by case_bool_decide.
Qed.

Lemma registration_payment_insert_refused :
  resolve_columns payments_columns registration_payment_columns
  = SqlError "42S22" "Unknown column 'ParticipantUserID' in 'field list'".
Proof. by vm_compute. Qed.

(** [POST /api/payments/registration] changes no registration's [Status]: a
    payment inserted as [completed] fires no confirmation (the trigger is
    [AFTER UPDATE] only) and the [SET] list of the handler's own [UPDATE]
    writes [PaymentStatus] alone.  In fact the handler's [INSERT] is
    refused, and the handler leaves the database as it was and does not
    answer 201. *)
Lemma registration_payment_keeps_status (db : database)
    (participantId eventId amount : option Z) (paymentMethod : option Pay.method) :
  registration_payment_frame db participantId eventId amount paymentMethod.
Proof.
  assert ((post_payments_registration participantId eventId amount paymentMethod db).1
          = db
          ∧ (post_payments_registration participantId eventId amount paymentMethod db).2
            ≠ Json 201 "Payment processed successfully") as [Hdb Hresp].
  { unfold post_payments_registration.
    destruct participantId, eventId, amount, paymentMethod; try done.
    destruct (falsy _ || falsy _ || falsy _); [done|].
    by rewrite registration_payment_insert_refused. }
  unfold registration_payment_frame. cbv zeta. rewrite Hdb.
  split; [done|].
  split; [intros NEW db1 id; apply insert_payment_keeps_registrations|].
  split; [intros u e k; apply mark_paid_keeps_status|done].
Qed.


End registration_payment.

(** ** Team roster *)

Section teams.
Implicit Types (db : database) (members : gmap (Z * Z) TM.row).

Lemma active_members_insert_other (t : Z) members (k : Z * Z) (m : TM.row) :
  members !! k = None → k.1 ≠ t →
  active_members t (<[k := m]> members) = active_members t members.
Proof.
  intros Hk Ht. unfold active_members.
  rewrite map_filter_insert_False by (simpl; tauto).
  by rewrite delete_id.
Qed.

Lemma active_members_insert_le (t : Z) members (k : Z * Z) (m : TM.row) :
  members !! k = None →
  (active_members t (<[k := m]> members) ≤ S (active_members t members))%nat.
Proof.
  intros Hk. unfold active_members. rewrite map_filter_insert.
  destruct (decide _).
  - rewrite map_size_insert. destruct (filter _ members !! k); simpl; lia.
  - rewrite delete_id by done. lia.
Qed.

Lemma active_members_delete_le (t : Z) members (k : Z * Z) :
  (active_members t (delete k members) ≤ active_members t members)%nat.
Proof.
  unfold active_members. rewrite map_filter_delete, map_size_delete.
  destruct (filter _ members !! k); simpl; lia.
Qed.

(** An addition by the leader of a team with three active members is
    answered 400 and inserts nothing (scenario D of the specification). *)
Lemma post_team_member_full (t : Z) (team : Teams.row) (u : option Z)
    (role : option string) db :
  tblTeams db !! t = Some team →
  (3 ≤ active_members t (tblTeamMembers db))%nat →
  post_team_member t (Some (Teams.LeaderID team)) u role db
  = (db, Json 400 "Team already has maximum allowed members (3)").
Proof.
  intros Ht Hfull. unfold post_team_member. rewrite Ht.
  rewrite bool_decide_eq_false_2 by (by intros ?).
  by rewrite bool_decide_eq_true_2.
Qed.

Lemma post_team_member_bound (t : Z) (me u : option Z) (role : option string) db :
  (∀ t', active_members t' (tblTeamMembers db) ≤ 3)%nat →
  ∀ t', (active_members t' (tblTeamMembers (post_team_member t me u role db).1) ≤ 3)%nat.
Proof.
  intros Hb t'. unfold post_team_member.
  destruct (tblTeams db !! t) as [team|]; [|done].
  case_bool_decide; [done|]. case_bool_decide as Hfull; [done|].
  destruct u as [u|]; [|done].
  destruct (tblTeamMembers db !! (t, u)) eqn:Hk; [done|].
  case_bool_decide; [|done]. simpl.
  destruct (decide (t = t')) as [<-|Hne].
  - pose proof (active_members_insert_le t (tblTeamMembers db) (t, u)
                  {| TM.Role := role_or_default role; TM.Status := TM.active |} Hk).
    lia.
  - by rewrite active_members_insert_other.
Qed.

Lemma delete_team_member_bound (t : Z) (me : option Z) (u : Z) db :
  (∀ t', active_members t' (tblTeamMembers db) ≤ 3)%nat →
  ∀ t', (active_members t' (tblTeamMembers (delete_team_member t me u db).1) ≤ 3)%nat.
Proof.
  intros Hb t'. unfold delete_team_member.
  destruct (tblTeams db !! t) as [team|]; [|done].
  destruct (bool_decide _ && true); [done|]. simpl.
  pose proof (active_members_delete_le t' (tblTeamMembers db) (t, u)).
  specialize (Hb t'). lia.
Qed.

Lemma active_members_alter_le (t : Z) members (k : Z * Z) (s : TM.status) :
  s ≠ TM.active →
  (active_members t (alter (set_member_status s) k members)
   ≤ active_members t members)%nat.
Proof.
  intros Hs. destruct (members !! k) as [m|] eqn:Hk.
  - assert (alter (set_member_status s) k members
            = <[k := set_member_status s m]> members) as ->.
    { apply map_eq. intros k'. rewrite lookup_alter, lookup_insert.
      case_decide as Hkk; [by subst; rewrite Hk|done]. }
    unfold active_members.
    rewrite map_filter_insert_False by (simpl; tauto).
    apply active_members_delete_le.
  - rewrite alter_id' by done. lia.
Qed.

Lemma put_team_member_bound (t : Z) (me : option Z) (u : Z) (s : status_value) db :
  s ≠ StatusMember TM.active →
  (∀ t', active_members t' (tblTeamMembers db) ≤ 3)%nat →
  ∀ t', (active_members t' (tblTeamMembers (put_team_member t me u s db).1) ≤ 3)%nat.
Proof.
  intros Hs Hb t'. unfold put_team_member.
  destruct (tblTeams db !! t) as [team|]; [|done].
  case_bool_decide; [done|].
  destruct s as [|s|]; [done| |by destruct (tblTeamMembers db !! (t, u))]. simpl.
  pose proof (active_members_alter_le t' (tblTeamMembers db) (t, u) s
                ltac:(congruence)).
  specialize (Hb t'). lia.
Qed.

(** Additions, removals and deactivations keep every team at three active
    members or fewer. *)
Lemma add_remove_keep_team_bound (calls : list team_call) db :
  forallb add_or_remove calls = true →
  (∀ t, active_members t (tblTeamMembers db) ≤ 3)%nat →
  ∀ t, (active_members t (tblTeamMembers (run_team_calls calls db)) ≤ 3)%nat.
Proof.
  unfold run_team_calls. revert db.
  induction calls as [|c calls IH]; intros db Hall Hb; simpl in *; [done|].
  apply andb_true_iff in Hall as [Hc Hall]. apply IH; [done|].
  destruct c; simpl in *.
  - by apply post_team_member_bound.
  - apply put_team_member_bound; [|done]. by apply bool_decide_eq_true in Hc.
  - by apply delete_team_member_bound.
Qed.

Example scenario_D_team_full :
  post_team_member 1 (Some 1) (Some 4) None full_team
  = (full_team, Json 400 "Team already has maximum allowed members (3)")
  ∧ active_members 1 (tblTeamMembers full_team) = 3%nat.
Proof. split; by vm_compute. Qed.



End teams.

(** * Further properties of the code *)

(** ** [AssignAccommodation]: guard, frame and outcome *)

Section allocation_outcome.
Implicit Types (db : lodging) (p : Z) (r : Req.row).

Lemma AssignAccommodation_refuses db p :
  (∀ r, tblAccommodationRequests db !! p = Some r → Req.Status r ≠ Req.Pending) →
  out_db (AssignAccommodation p db) = db
  ∧ p_Success (AssignAccommodation p db) = false.
Proof.
  intros Hno. unfold AssignAccommodation.
  destruct (tblAccommodationRequests db !! p) as [r|] eqn:Hp; [|done].
  by rewrite bool_decide_eq_true_2 by eauto.
Qed.

Lemma AssignAccommodation_leaves_none_pending db p r :
  tblAccommodationRequests (out_db (AssignAccommodation p db)) !! p = Some r →
  Req.Status r ≠ Req.Pending.
Proof.
  unfold AssignAccommodation.
  destruct (tblAccommodationRequests db !! p) as [r0|] eqn:Hp.
  2: { simpl. by rewrite Hp. }
  case_bool_decide as Hst.
  { simpl. rewrite Hp. by intros [= <-]. }
  destruct (select_candidate db p _ _ _) as [a|]; simpl;
    rewrite lookup_insert_eq; by intros [= <-].
Qed.

(** X1.  A request is processed once: a second call of [AssignAccommodation]
    on the same request, directly after the first, reports failure and
    leaves every table as the first call left it (request not found, or
    "already processed"). *)
Theorem AssignAccommodation_second_call_refused db p :
  out_db (AssignAccommodation p (out_db (AssignAccommodation p db)))
    = out_db (AssignAccommodation p db)
  ∧ p_Success (AssignAccommodation p (out_db (AssignAccommodation p db))) = false.
Proof.
  apply AssignAccommodation_refuses.
  intros r. apply AssignAccommodation_leaves_none_pending.
Qed.

(** X2.  A call of [AssignAccommodation] on request [p] leaves the table
    [Accommodations] and every other request as they are, creates and deletes
    no request, and keeps the user, the dates and the head count of request
    [p]. *)
Theorem AssignAccommodation_frame db p :
  assign_frame db (out_db (AssignAccommodation p db)) p.
Proof.
  unfold assign_frame, AssignAccommodation.
  destruct (tblAccommodationRequests db !! p) as [r|] eqn:Hp.
  2: { simpl. by rewrite Hp. }
  case_bool_decide as Hst.
  { simpl. by rewrite Hp. }
  destruct (select_candidate db p _ _ _) as [a|]; simpl;
    rewrite lookup_insert_eq;
    (split; [done|]); (split; [|done]);
    intros k Hk; by rewrite lookup_insert_ne.
Qed.

(** X3.  On a pending request the procedure succeeds exactly when some row of
    [Accommodations] passes the capacity, availability and overlap tests.
    On success the request is [Approved] into a row of the table whose
    capacity covers the head count and whose availability is not
    [Unavailable] (a row under [Maintenance] qualifies); otherwise the
    request is [Rejected] and its assignment column is not touched. *)
Theorem AssignAccommodation_outcome db p r
    (Hp : tblAccommodationRequests db !! p = Some r)
    (Hpending : Req.Status r = Req.Pending) :
  assign_outcome db p r.
Proof.
  unfold assign_outcome. cbv zeta. unfold AssignAccommodation. rewrite Hp.
  rewrite bool_decide_eq_false_2 by (by intros ?).
  destruct (select_candidate db p _ _ _) as [a|] eqn:Hsel; simpl;
    rewrite lookup_insert_eq.
  - destruct (select_candidate_elem _ _ _ _ _ _ Hsel) as [Hin Hc].
    split; [split; [done|eauto]|]. split; [|done].
    intros _. split; [done|]. exists a.
    unfold candidate in Hc.
    apply andb_true_iff in Hc as [Hc _]. apply andb_true_iff in Hc as [Hcap Hav].
    apply bool_decide_eq_true in Hav. rewrite Z.geb_le in Hcap. done.
  - split; [|split; [done|done]].
    split; [|done]. intros (a & Hin & Hc).
    by rewrite (select_candidate_None db p _ _ _ a Hsel Hin) in Hc.
Qed.

Lemma AssignAccommodation_outcome_witness :
  tblAccommodationRequests maintenance_only !! 7 = Some request_alice
  ∧ Req.Status request_alice = Req.Pending
  ∧ assigned_by maintenance_only 7 = Some 4
  ∧ assign_outcome maintenance_only 7 request_alice.
Proof.
  split; [done|]. split; [done|]. split; [by vm_compute|].
  by apply (AssignAccommodation_outcome maintenance_only 7 request_alice).
Defined.

End allocation_outcome.

(** ** Payments: frame of an update, and the financial summary *)

Section payments_more.
Implicit Types (db : database) (p OLD NEW : Pay.row) (payments : gmap Z Pay.row).

(** X4.  An accepted update of a payment changes no other payment and no
    table besides [Payments] and [Registrations]; it creates and deletes no
    registration, and a registration row changes only by being confirmed
    ([confirmed]/[paid]) from [pending] or [waitlisted], as the target of an
    update that takes the payment into [completed]. *)
Theorem update_payment_only_confirms db (pid : Z) (set : Pay.row → Pay.row) db'
    (Hupd : update_payment pid set db = SqlOk db') :
  update_only_confirms db db' pid set.
Proof.
  unfold update_payment in Hupd.
  destruct (tblPayments db !! pid) as [OLD|] eqn:Hold.
  2: { injection Hupd as <-. repeat split; try done. intros k.
       destruct (tblRegistrations db !! k); [by left|done]. }
  simpl in Hupd.
  destruct (validate_payment_relation_on_update (set OLD)) as [[]|]; [|done].
  destruct (check_payment_amount (set OLD)) as [[]|]; [|done].
  simpl in Hupd. injection Hupd as <-.
  unfold ConfirmRegistrationOnPayment.
  destruct (confirmation_fires OLD (set OLD)) eqn:Hfire.
  2: { repeat split; try done.
       - intros q Hq. simpl. by rewrite lookup_insert_ne.
       - intros k. simpl. destruct (tblRegistrations db !! k); [by left|done]. }
  unfold confirmation_fires in Hfire.
  apply andb_true_iff in Hfire as [Hfire Htarget].
  apply andb_true_iff in Hfire as [Hfrom Hto].
  apply bool_decide_eq_true in Hfrom, Hto, Htarget.
  destruct (Pay.RelatedRegistrationID (set OLD)) as [rid|] eqn:Hrid; [|done].
  repeat split; try done.
  - intros q Hq. simpl. by rewrite lookup_insert_ne.
  - intros k. simpl. rewrite confirm_registration_lookup.
    destruct (decide (k = rid)) as [->|Hk].
    + destruct (tblRegistrations db !! rid) as [r|] eqn:Hr; simpl; [|done].
      destruct (bool_decide (Reg.Status r = Reg.pending)
                || bool_decide (Reg.Status r = Reg.waitlisted)) eqn:Hs; [|by left].
      right. split; [done|]. split; [|by eauto 10].
      apply orb_true_iff in Hs as [Hs|Hs]; apply bool_decide_eq_true in Hs; eauto.
    + destruct (tblRegistrations db !! k); [by left|done].
Qed.

Lemma update_payment_only_confirms_witness :
  ∃ db', completePayment 1 scenario_cancelled = SqlOk db'
         ∧ (tblRegistrations db' !! 1) = Some (confirm_paid registration_alice)
         ∧ (tblRegistrations db' !! 2) = Some registration_bob_cancelled
         ∧ update_only_confirms scenario_cancelled db' 1 set_completed.
Proof.
  destruct (completePayment 1 scenario_cancelled) as [db'|] eqn:H;
    [|by vm_compute in H].
  exists db'. split; [done|].
  split; [by vm_compute in H; simplify_eq|].
  split; [by vm_compute in H; simplify_eq|].
  exact (update_payment_only_confirms scenario_cancelled 1 set_completed db' H).
Defined.

Lemma sum_amount_empty (cond : Pay.row → bool) : sum_amount cond ∅ = 0.
Proof. unfold sum_amount. by rewrite map_fold_empty. Qed.

Lemma sum_amount_insert (cond : Pay.row → bool) payments (k : Z) p :
  payments !! k = None →
  sum_amount cond (<[k := p]> payments)
  = (if cond p then Pay.Amount p else 0) + sum_amount cond payments.
Proof.
  intros Hk. unfold sum_amount. rewrite map_fold_insert_L; [done| |done].
  intros; lia.
Qed.

Lemma sum_amount_replace (cond : Pay.row → bool) payments (k : Z) p p' :
  payments !! k = Some p →
  sum_amount cond (<[k := p']> payments)
  = sum_amount cond payments
    - (if cond p then Pay.Amount p else 0) + (if cond p' then Pay.Amount p' else 0).
Proof.
  intros Hk.
  rewrite <- (insert_delete_id payments k p Hk) at 2.
  rewrite <- insert_delete_eq.
  rewrite !sum_amount_insert by apply lookup_delete_eq. lia.
Qed.

Lemma revenue_of_one_target p :
  one_target p →
  (if registration_revenue p then Pay.Amount p else 0)
  + (if sponsorship_revenue p then Pay.Amount p else 0)
  = (if is_completed p then Pay.Amount p else 0).
Proof.
  unfold one_target, registration_revenue, sponsorship_revenue, is_completed.
  intros [[H1 H2]|[H1 H2]]; repeat case_bool_decide; simpl;
    first [lia | congruence].
Qed.

(** X5.  When every payment has exactly one target, the two rows of
    [GenerateFinancialSummary] add up to the total of all completed
    payments: no completed payment is counted twice or left out. *)
Theorem GenerateFinancialSummary_splits_completed db
    (Htargets : map_Forall (λ _ p, one_target p) (tblPayments db)) :
  ∃ reg spons,
    GenerateFinancialSummary db
    = [("Registration Revenue", reg); ("Sponsorship Revenue", spons)]
    ∧ reg + spons = sum_amount is_completed (tblPayments db).
Proof.
  unfold GenerateFinancialSummary. do 2 eexists. split; [done|].
  induction (tblPayments db) as [|k p m Hk IH] using map_ind.
  - by rewrite !sum_amount_empty.
  - apply map_Forall_insert in Htargets as [Hp Hm]; [|done].
    rewrite !sum_amount_insert by done. specialize (IH Hm).
    pose proof (revenue_of_one_target p Hp). lia.
Qed.

Lemma GenerateFinancialSummary_splits_completed_witness :
  map_Forall (λ _ p, one_target p) (tblPayments two_payments)
  ∧ GenerateFinancialSummary two_payments
    = [("Registration Revenue", 0); ("Sponsorship Revenue", 90000)]
  ∧ ∃ reg spons,
      GenerateFinancialSummary two_payments
      = [("Registration Revenue", reg); ("Sponsorship Revenue", spons)]
      ∧ reg + spons = sum_amount is_completed (tblPayments two_payments).
Proof.
  assert (map_Forall (λ _ p, one_target p) (tblPayments two_payments)) as H.
  { apply payments_reachable_one_target.
    apply reach_insert, reach_insert, reach_empty. reflexivity. }
  split; [exact H|]. split; [by vm_compute|].
  exact (GenerateFinancialSummary_splits_completed two_payments H).
Defined.

(** X6.  Completing a registration payment that was not completed raises
    the row "Registration Revenue" of [GenerateFinancialSummary] by exactly
    the payment's amount and leaves "Sponsorship Revenue" as it was. *)
Theorem completePayment_raises_registration_revenue db (pid : Z) OLD (rid : Z)
    (Hold : tblPayments db !! pid = Some OLD)
    (Hfrom : Pay.Status OLD ≠ Pay.completed)
    (Hrid : Pay.RelatedRegistrationID OLD = Some rid)
    (Hcid : Pay.RelatedContractID OLD = None)
    (Hamt : 0 < Pay.Amount OLD) :
  completion_raises_registration_revenue db pid OLD.
Proof.
  unfold completion_raises_registration_revenue, completePayment, update_payment.
  rewrite Hold. simpl.
  unfold validate_payment_relation_on_update. simpl. rewrite Hrid, Hcid. simpl.
  unfold check_payment_amount. simpl.
  assert ((Pay.Amount OLD >? 0) = true) as -> by (apply Z.gtb_lt; lia).
  simpl. do 3 eexists. split; [done|]. split; [done|].
  unfold GenerateFinancialSummary.
  rewrite !ConfirmRegistrationOnPayment_payments. simpl.
  rewrite !(sum_amount_replace _ _ _ OLD) by done.
  unfold registration_revenue, sponsorship_revenue. simpl. rewrite Hrid, Hcid.
  rewrite (bool_decide_eq_false_2 (Pay.Status OLD = Pay.completed)) by done.
  simpl. repeat f_equal; lia.
Qed.

Lemma completePayment_raises_registration_revenue_witness :
  GenerateFinancialSummary two_payments
  = [("Registration Revenue", 0); ("Sponsorship Revenue", 90000)]
  ∧ completion_raises_registration_revenue two_payments 1 payment_alice.
Proof.
  split; [by vm_compute|].
  by apply (completePayment_raises_registration_revenue
              two_payments 1 payment_alice 1); vm_compute.
Defined.

(** X7.  [POST /api/payments/sponsorship] never records a payment: its
    [INSERT] names the column [SponsorID], which [Payments] does not have,
    so the statement is refused as an unknown column; the handler answers
    400 (a field is missing) or 500 and leaves the database as it was. *)
Theorem sponsorship_payment_never_recorded db (sponsorId amount : option Z)
    (paymentMethod : option Pay.method) (description : option string) :
  let out := post_payments_sponsorship sponsorId amount paymentMethod description db in
  out.1 = db
  ∧ (out.2 = Json 400 "Missing required fields"
     ∨ out.2 = Json 500 "Internal server error")
  ∧ (out.2 = Json 400 "Missing required fields"
     ↔ falsy sponsorId || falsy amount || bool_decide (paymentMethod = None) = true).
Proof.
  unfold post_payments_sponsorship.
  destruct sponsorId as [s|], amount as [a|], paymentMethod as [m|]; simpl;
    try destruct (bool_decide (s = 0)); try destruct (bool_decide (a = 0));
    simpl; (split; [done|]);
    (split; [first [by left | by right]|]);
    split; done.
Qed.

End payments_more.

(** ** Team roster: authorisation *)

Section teams_more.
Implicit Types (db : database) (members : gmap (Z * Z) TM.row).

(** X8.  No roster handler changes anything for a caller who is not the
    team's leader: the addition, the status update and the removal all
    answer 403 and leave the database as it is, also when the team does not
    exist or [req.user.id] is [undefined]. *)
Theorem roster_call_by_non_leader_refused db (c : team_call)
    (Hnot : ∀ team, tblTeams db !! team_of c = Some team →
                    Some (Teams.LeaderID team) ≠ caller_of c) :
  run_team_call db c = db
  ∧ ∃ msg, team_call_response db c = Json 403 msg.
Proof.
  destruct c as [t me u role|t me u s|t me u]; simpl in *.
  - unfold post_team_member.
    destruct (tblTeams db !! t) as [team|]; [|by eauto].
    rewrite bool_decide_eq_true_2 by eauto. by eauto.
  - unfold put_team_member.
    destruct (tblTeams db !! t) as [team|]; [|by eauto].
    rewrite bool_decide_eq_true_2 by eauto. by eauto.
  - unfold delete_team_member.
    destruct (tblTeams db !! t) as [team|]; [|by eauto].
    rewrite bool_decide_eq_true_2 by eauto. by eauto.
Qed.

Lemma roster_call_by_non_leader_refused_witness :
  (∀ team, tblTeams team_of_two !! 1 = Some team →
           Some (Teams.LeaderID team) ≠ None)
  ∧ run_team_call team_of_two (AddMember 1 None (Some 4) None) = team_of_two
  ∧ ∃ msg, team_call_response team_of_two (AddMember 1 None (Some 4) None)
           = Json 403 msg.
Proof.
  assert (∀ team, tblTeams team_of_two !! team_of (AddMember 1 None (Some 4) None)
                  = Some team →
                  Some (Teams.LeaderID team)
                  ≠ caller_of (AddMember 1 None (Some 4) None)) as Hnot
    by (intros team _; done).
  split; [exact Hnot|].
  exact (roster_call_by_non_leader_refused team_of_two
           (AddMember 1 None (Some 4) None) Hnot).
Defined.


End teams_more.

(** ** [PATCH /registration/:id] *)

Section patch.
Implicit Types (db : database) (r : Reg.row).




End patch.

(** ** Password rules *)

Section passwords.
Implicit Types (s pre post : js_string) (cls : Z → bool).

Lemma passwordValidator_true s :
  passwordValidator s = true ↔
  (8 ≤ length s)%nat ∧ test_class upper s = true ∧ test_class lower s = true
  ∧ test_class digit s = true ∧ test_class validator_special s = true.
Proof.
  unfold passwordValidator.
  destruct (length s <? 8)%nat eqn:Hlen.
  { apply Nat.ltb_lt in Hlen. split; [done|]. intros [? _]. lia. }
  apply Nat.ltb_ge in Hlen.
  destruct (test_class upper s), (test_class lower s), (test_class digit s),
    (test_class validator_special s); simpl;
    (split; [intros H; try done; by repeat split|intros (?&?&?&?&?); done]).
Qed.

Lemma test_class_app cls s1 s2 :
  test_class cls (s1 ++ s2) = test_class cls s1 || test_class cls s2.
Proof. apply existsb_app. Qed.

(** X11.  [passwordValidator] rejects every string of fewer than eight code
    units, and a string it accepts stays accepted when further characters
    are put before or after it. *)
Theorem passwordValidator_extension s pre post
    (Hok : passwordValidator s = true) :
  (8 ≤ length s)%nat ∧ passwordValidator (pre ++ s ++ post) = true.
Proof.
  apply passwordValidator_true in Hok as (Hlen & Hu & Hl & Hd & Hs).
  split; [done|]. apply passwordValidator_true.
  rewrite !length_app, !test_class_app, Hu, Hl, Hd, Hs.
  rewrite !orb_true_r. simpl. repeat split; try done. lia.
Qed.

Lemma passwordValidator_extension_witness :
  passwordValidator (units "Passw0rd#") = true
  ∧ (8 ≤ length (units "Passw0rd#"))%nat
  ∧ passwordValidator (units "my " ++ units "Passw0rd#" ++ units " 2025") = true.
Proof.
  assert (passwordValidator (units "Passw0rd#") = true) as Hok by by vm_compute.
  split; [exact Hok|].
  exact (passwordValidator_extension (units "Passw0rd#") (units "my ")
           (units " 2025") Hok).
Defined.

Lemma lookahead_test_class cls s : lookahead cls s = true → test_class cls s = true.
Proof.
  induction s as [|c s IH]; simpl; [done|].
  intros [Hc|[_ Hs]%andb_true_iff]%orb_true_iff.
  - by rewrite Hc.
  - rewrite (IH Hs). apply orb_true_r.
Qed.

Lemma rule_special_validator_special (c : Z) :
  rule_special c = true → validator_special c = true.
Proof.
  unfold rule_special. intros Hc%bool_decide_eq_true.
  repeat (apply elem_of_cons in Hc as [->|Hc]; [by vm_compute|]).
  by apply elem_of_nil in Hc.
Qed.

Lemma test_class_impl cls cls' s :
  (∀ c, cls c = true → cls' c = true) →
  test_class cls s = true → test_class cls' s = true.
Proof.
  intros Himpl. unfold test_class. rewrite !existsb_exists.
  intros (c & Hin & Hc). eauto.
Qed.

(** X12.  A password that matches the rule of the registration middleware
    is accepted by [passwordValidator], which the handler calls afterwards:
    the handler's own password test never rejects a validated request. *)
Theorem password_rule_implies_passwordValidator s
    (Hrule : matches_password_rule s = true) :
  passwordValidator s = true.
Proof.
  unfold matches_password_rule in Hrule.
  repeat (apply andb_true_iff in Hrule as [Hrule ?]).
  apply passwordValidator_true.
  split; [by apply Nat.leb_le|].
  repeat split; try by apply lookahead_test_class.
  eapply test_class_impl; [apply rule_special_validator_special|].
  by apply lookahead_test_class.
Qed.

Lemma password_rule_implies_passwordValidator_witness :
  matches_password_rule (units "Passw0rd!") = true
  ∧ passwordValidator (units "Passw0rd!") = true.
Proof.
  assert (matches_password_rule (units "Passw0rd!") = true) as Hrule
    by by vm_compute.
  split; [exact Hrule|].
  exact (password_rule_implies_passwordValidator (units "Passw0rd!") Hrule).
Defined.

(** The converse fails: [#] is special for [passwordValidator] only. *)
Example passwordValidator_wider_than_rule :
  passwordValidator (units "Passw0rd#") = true
  ∧ matches_password_rule (units "Passw0rd#") = false.
Proof. split; by vm_compute. Qed.

End passwords.

(** ** Sponsorship contracts *)

Section contracts.
Implicit Types (contracts : gmap Z Con.row) (c NEW OLD : Con.row).

Lemma insert_contract_spec NEW contracts :
  (contract_ok NEW
   ∧ insert_contract NEW contracts
     = SqlOk (<[auto_increment contracts := NEW]> contracts,
              auto_increment contracts))
  ∨ (¬ contract_ok NEW ∧ sql_rejected (insert_contract NEW contracts)).
Proof.
  unfold contract_ok, insert_contract, validate_sponsorship_link_on_insert,
    check_contract.
  rewrite !Z.geb_leb.
  destruct (Z.leb_spec 0 (Con.ContractAmount NEW)),
           (Z.leb_spec (Con.StartDate NEW) (Con.EndDate NEW)),
           (Con.PackageID NEW), (Con.CustomLevelID NEW); simpl;
    first [ left; split; [split; [by (left + right)|lia]|done]
          | right; split; [intros ([?|?] & ? & ?); first [done|lia]|done] ].
Qed.

Lemma update_contract_spec (cid : Z) (set : Con.row → Con.row) OLD contracts :
  contracts !! cid = Some OLD →
  (contract_ok (set OLD)
   ∧ update_contract cid set contracts = SqlOk (<[cid := set OLD]> contracts))
  ∨ (¬ contract_ok (set OLD) ∧ sql_rejected (update_contract cid set contracts)).
Proof.
  intros Hold.
  unfold contract_ok, update_contract, validate_sponsorship_link_on_update,
    check_contract.
  rewrite Hold. simpl. rewrite !Z.geb_leb.
  destruct (Z.leb_spec 0 (Con.ContractAmount (set OLD))),
           (Z.leb_spec (Con.StartDate (set OLD)) (Con.EndDate (set OLD))),
           (Con.PackageID (set OLD)), (Con.CustomLevelID (set OLD)); simpl;
    first [ left; split; [split; [by (left + right)|lia]|done]
          | right; split; [intros ([?|?] & ? & ?); first [done|lia]|done] ].
Qed.

Lemma after_insert_contract_ok NEW contracts :
  map_Forall (λ _ c, contract_ok c) contracts →
  map_Forall (λ _ c, contract_ok c) (after_insert_contract NEW contracts).
Proof.
  intros Hinv. unfold after_insert_contract.
  destruct (insert_contract_spec NEW contracts) as [[Hok ->]|[_ Hrej]].
  - by apply map_Forall_insert_2.
  - by destruct (insert_contract NEW contracts).
Qed.

Lemma after_update_contract_ok (cid : Z) (set : Con.row → Con.row) contracts :
  map_Forall (λ _ c, contract_ok c) contracts →
  map_Forall (λ _ c, contract_ok c) (after_update_contract cid set contracts).
Proof.
  intros Hinv. unfold after_update_contract.
  destruct (contracts !! cid) as [OLD|] eqn:Hold.
  - destruct (update_contract_spec cid set OLD contracts Hold)
      as [[Hok ->]|[_ Hrej]].
    + by apply map_Forall_insert_2.
    + by destruct (update_contract cid set contracts).
  - unfold update_contract. by rewrite Hold.
Qed.

(** X13.  In every table of sponsorship contracts reached by inserts and
    updates, accepted or rejected, each contract names a package or a custom
    level (both are allowed), has a non-negative amount and does not end
    before it starts; a statement whose new row breaks one of these is
    rejected and leaves the table as it was. *)
Theorem contracts_stay_linked contracts
    (Hreach : contracts_reachable contracts) :
  contracts_guarded contracts.
Proof.
  assert (map_Forall (λ _ c, contract_ok c) contracts) as Hinv.
  { induction Hreach.
    - apply map_Forall_empty.
    - by apply after_insert_contract_ok.
    - by apply after_update_contract_ok. }
  split; [done|]. split.
  - intros NEW Hbad. unfold after_insert_contract.
    destruct (insert_contract_spec NEW contracts) as [[Hok _]|[_ Hrej]]; [done|].
    by destruct (insert_contract NEW contracts).
  - intros cid set OLD Hold Hbad. unfold after_update_contract.
    destruct (update_contract_spec cid set OLD contracts Hold)
      as [[Hok _]|[_ Hrej]]; [done|].
    by destruct (update_contract cid set contracts).
Qed.

Lemma contracts_stay_linked_witness :
  contracts_reachable
    (after_update_contract 1 set_active (after_insert_contract contract_bank ∅))
  ∧ (Con.Status <$> after_update_contract 1 set_active
                      (after_insert_contract contract_bank ∅) !! 1)
    = Some Con.active
  ∧ contracts_guarded
      (after_update_contract 1 set_active (after_insert_contract contract_bank ∅)).
Proof.
  assert (contracts_reachable
            (after_update_contract 1 set_active
               (after_insert_contract contract_bank ∅))) as Hreach
    by apply contracts_update, contracts_insert, contracts_empty.
  split; [exact Hreach|]. split; [by vm_compute|].
  exact (contracts_stay_linked _ Hreach).
Defined.

End contracts.

(** ** System alerts: the low-stock trigger *)

Section alerts.
Implicit Types (alerts : gmap Z Alert.row) (a : Alert.row).

Lemma exists_alert_true (cond : Alert.row → bool) alerts :
  exists_alert cond alerts = true ↔
  ∃ k a, alerts !! k = Some a ∧ cond a = true.
Proof.
  unfold exists_alert. rewrite existsb_exists. split.
  - intros ([k a] & Hin & Hc). exists k, a. split; [|done].
    by apply elem_of_map_to_list, list_elem_of_In.
  - intros (k & a & Hk & Hc). exists (k, a). split; [|done].
    by apply list_elem_of_In, elem_of_map_to_list.
Qed.

Lemma insert_alerts_keeps {A} (mk : A → Alert.row) (xs : list A) alerts (k : Z) a :
  alerts !! k = Some a → insert_alerts mk xs alerts !! k = Some a.
Proof.
  unfold insert_alerts. revert alerts.
  induction xs as [|x xs IH]; intros alerts Hk; simpl; [done|].
  apply IH. rewrite lookup_insert_ne; [done|].
  intros <-. by rewrite auto_increment_fresh in Hk.
Qed.

Lemma insert_alerts_new {A} (mk : A → Alert.row) (xs : list A) alerts (k : Z) a :
  insert_alerts mk xs alerts !! k = Some a →
  alerts !! k = Some a ∨ ∃ x, x ∈ xs ∧ a = mk x.
Proof.
  unfold insert_alerts. revert alerts.
  induction xs as [|x xs IH]; intros alerts Hk; simpl in *; [by left|].
  apply IH in Hk as [Hk|(y & Hy & ->)].
  - rewrite lookup_insert in Hk. case_decide; [|by left].
    right. exists x. split; [by left|congruence].
  - right. exists y. split; [by right|done].
Qed.

End alerts.

Section low_stock.
Variable collate : string → string → bool.
Implicit Types (st : stock) (alerts : gmap Z Alert.row) (a : Alert.row).

Lemma admin_roles_elem (roles : gmap Z string) (r : Z) :
  r ∈ admin_roles collate roles →
  ∃ name, roles !! r = Some name
          ∧ (collate name "admin" = true ∨ collate name "super_admin" = true).
Proof.
  unfold admin_roles. intros ([k name] & -> & Hin)%list_elem_of_fmap.
  apply elem_of_map_to_list, map_lookup_filter_Some in Hin as [Hk Hname].
  simpl in Hname. apply orb_true_iff in Hname. by exists name.
Qed.

(** An alert that an update of an item creates is the low-stock alert of
    that item and that time. *)
Lemma update_item_new_alert (now itemId : Z) (set : Item.row → Item.row) st st'
    (k : Z) a :
  update_item collate now itemId set st = SqlOk st' →
  tblSystemAlerts st !! k = None → tblSystemAlerts st' !! k = Some a →
  ∃ NEW roleId, a = low_stock_alert now itemId NEW roleId.
Proof.
  unfold update_item. intros Hupd Hnone Hsome.
  destruct (tblInventoryItems st !! itemId) as [OLD|];
    [|injection Hupd as <-; congruence].
  simpl in Hupd. destruct (check_item (set OLD)) as [[]|]; [|done].
  simpl in Hupd. injection Hupd as <-. unfold CheckLowStockOnUpdate in Hsome.
  destruct (low_stock_crossed OLD (set OLD)); simpl in Hsome; [|congruence].
  destruct (exists_alert _ (tblSystemAlerts st)); simpl in Hsome; [congruence|].
  apply insert_alerts_new in Hsome as [Hsome|(r & _ & ->)]; [congruence|].
  by eauto.
Qed.

(** X14.  An accepted update of an inventory item removes and changes no
    alert, and creates alerts only when the quantity falls from at or above
    the low-stock threshold to below it while no unread low-stock alert of
    the last hour exists for the item; each alert it creates is an unread
    [LowInventory] alert for that item, stamped with the time of the update
    and addressed to a role whose name equals [admin] or [super_admin] under
    the collation of the column. *)
Theorem update_item_alerts (now itemId : Z) (set : Item.row → Item.row) st st'
    (Hupd : update_item collate now itemId set st = SqlOk st') :
  low_stock_alerts_shape collate now itemId set st st'.
Proof.
  unfold update_item in Hupd.
  destruct (tblInventoryItems st !! itemId) as [OLD|] eqn:Hold.
  2: { injection Hupd as <-. split; [done|]. split; [done|].
       intros k a H1 H2; simpl in *; congruence. }
  simpl in Hupd. destruct (check_item (set OLD)) as [[]|]; [|done].
  simpl in Hupd. injection Hupd as <-.
  unfold CheckLowStockOnUpdate.
  destruct (low_stock_crossed OLD (set OLD)) eqn:Hcross; simpl.
  2: { split; [done|]. split; [done|].
       intros k a H1 H2; simpl in *; congruence. }
  destruct (exists_alert _ (tblSystemAlerts st)) eqn:Hex; simpl.
  { split; [done|]. split; [done|].
       intros k a H1 H2; simpl in *; congruence. }
  split; [done|]. split; [by intros k a; apply insert_alerts_keeps|].
  intros k a Hnone Hsome.
  apply insert_alerts_new in Hsome as [Hsome|(r & Hr & ->)]; [congruence|].
  apply admin_roles_elem in Hr as (name & Hrole & Hname).
  unfold low_stock_crossed in Hcross.
  apply andb_true_iff in Hcross as [_ Hcross].
  destruct (Item.LowStockThreshold (set OLD)) as [threshold|] eqn:Hthr; [|done].
  apply andb_true_iff in Hcross as [Hlt Hge].
  apply Z.ltb_lt in Hlt. rewrite Z.geb_le in Hge.
  exists OLD, threshold, r, name. by repeat split.
Qed.

(** While an unread low-stock alert of the last hour exists for the item,
    an update of that item leaves the alerts as they are. *)
Lemma after_update_item_suppressed (now itemId : Z) (set : Item.row → Item.row)
    st (k : Z) a :
  tblSystemAlerts st !! k = Some a →
  unread_low_stock_alert now itemId a = true →
  tblSystemAlerts (after_update_item collate now itemId set st) = tblSystemAlerts st.
Proof.
  intros Hk Ha. unfold after_update_item, update_item.
  destruct (tblInventoryItems st !! itemId) as [OLD|]; [|done].
  simpl. destruct (check_item (set OLD)) as [[]|]; [|done]. simpl.
  unfold CheckLowStockOnUpdate. destruct (low_stock_crossed _ _); [|done].
  simpl.
  assert (exists_alert (unread_low_stock_alert now itemId) (tblSystemAlerts st)
          = true) as -> by (apply exists_alert_true; eauto).
  done.
Qed.

(** X15.  Low-stock alerts come at most once an hour: after an update of an
    item at time [t] has created an alert, no sequence of further updates of
    that item at times from [t] to less than an hour later creates another
    one, however often the quantity is refilled and falls again. *)
Theorem low_stock_alert_once_an_hour (t itemId : Z) (set : Item.row → Item.row)
    st st1 (k : Z) a (steps : list (Z * (Item.row → Item.row)))
    (Hupd : update_item collate t itemId set st = SqlOk st1)
    (Hnew : tblSystemAlerts st !! k = None)
    (Hcreated : tblSystemAlerts st1 !! k = Some a)
    (Htimes : Forall (λ step, t ≤ step.1 < t + 3600) steps) :
  tblSystemAlerts (update_item_steps collate itemId steps st1) = tblSystemAlerts st1.
Proof.
  destruct (update_item_new_alert t itemId set st st1 k a Hupd Hnew Hcreated)
    as (NEW & r & ->).
  clear Hupd Hnew. unfold update_item_steps.
  revert st1 Hcreated. induction Htimes as [|[now' set'] steps Hnow _ IH];
    intros st1 Hcreated; simpl; [done|].
  assert (tblSystemAlerts (after_update_item collate now' itemId set' st1)
          = tblSystemAlerts st1) as Hsame.
  { eapply after_update_item_suppressed; [exact Hcreated|].
    unfold unread_low_stock_alert. simpl in *.
    rewrite !bool_decide_eq_true_2 by done. simpl.
    apply Z.gtb_lt. lia. }
  rewrite IH; [done|]. by rewrite Hsame.
Qed.

End low_stock.

Lemma update_item_alerts_witness :
  ∃ st', update_item ignore_case 1000 1 (set_quantity 10) store_capital = SqlOk st'
         ∧ size (tblSystemAlerts st') = 2%nat
         ∧ low_stock_alerts_shape ignore_case 1000 1 (set_quantity 10)
             store_capital st'.
Proof.
  destruct (update_item ignore_case 1000 1 (set_quantity 10) store_capital)
    as [st'|] eqn:H; [|by vm_compute in H].
  exists st'. split; [done|].
  split; [by vm_compute in H; simplify_eq|].
  exact (update_item_alerts ignore_case 1000 1 (set_quantity 10) store_capital st' H).
Defined.

(** The role stored as [Admin] is alerted under a collation that ignores
    case, and is not under one that compares the strings as stored. *)
Example low_stock_alert_for_role_Admin :
  admin_roles ignore_case (tblRoles store_capital) = [2; 1]
  ∧ admin_roles binary (tblRoles store_capital) = [1]
  ∧ admin_roles binary (tblRoles store) = [2; 1].
Proof. repeat split; by vm_compute. Qed.

Lemma low_stock_alert_once_an_hour_witness :
  ∃ st1 a,
    update_item ignore_case 1000 1 (set_quantity 10) store = SqlOk st1
    ∧ tblSystemAlerts store !! 1 = None
    ∧ tblSystemAlerts st1 !! 1 = Some a
    ∧ Forall (λ step : Z * (Item.row → Item.row), 1000 ≤ step.1 < 1000 + 3600)
        refill_and_fall
    ∧ (Item.QuantityOnHand
         <$> tblInventoryItems (update_item_steps ignore_case 1 refill_and_fall st1) !! 1)
      = Some 5
    ∧ tblSystemAlerts (update_item_steps ignore_case 1 refill_and_fall st1)
      = tblSystemAlerts st1.
Proof.
  destruct (update_item ignore_case 1000 1 (set_quantity 10) store) as [st1|] eqn:H;
    [|by vm_compute in H].
  destruct (tblSystemAlerts st1 !! 1) as [a|] eqn:Ha;
    [|by vm_compute in H; simplify_eq].
  assert (Forall (λ step : Z * (Item.row → Item.row), 1000 ≤ step.1 < 1000 + 3600)
            refill_and_fall) as Htimes
    by (repeat constructor; simpl; lia).
  exists st1, a. split; [done|]. split; [done|]. split; [done|].
  split; [exact Htimes|].
  split; [by vm_compute in H; simplify_eq|].
  exact (low_stock_alert_once_an_hour ignore_case 1000 1 (set_quantity 10) store
           st1 1 a refill_and_fall H eq_refl Ha Htimes).
Defined.

(** ** System alerts: the reminder job *)

Section reminders_proofs.
Variable DATE_FORMAT : Z → string.
Variable TIME_FORMAT : Z → string.
Variable schedule : Z → Z * Z.
Implicit Types (alerts : gmap Z Alert.row) (row : reminder_row) (db : database).

Local Abbreviation remind_row := (remind DATE_FORMAT TIME_FORMAT).
Local Abbreviation job := (GenerateEventReminders DATE_FORMAT TIME_FORMAT schedule).

Lemma remind_keeps (now : Z) alerts row (k : Z) (a : Alert.row) :
  alerts !! k = Some a → remind_row now alerts row !! k = Some a.
Proof.
  intros Hk. unfold remind. destruct (negb _); [|done].
  rewrite lookup_insert_ne; [done|].
  intros <-. by rewrite auto_increment_fresh in Hk.
Qed.

Lemma foldl_remind_keeps (now : Z) (rows : list reminder_row) alerts (k : Z)
    (a : Alert.row) :
  alerts !! k = Some a → foldl (remind_row now) alerts rows !! k = Some a.
Proof.
  revert alerts. induction rows as [|row rows IH]; intros alerts Hk; simpl;
    [done|].
  by apply IH, remind_keeps.
Qed.

Lemma exists_alert_mono (cond : Alert.row → bool) alerts (alerts' : gmap Z Alert.row) :
  (∀ k a, alerts !! k = Some a → alerts' !! k = Some a) →
  exists_alert cond alerts = true → exists_alert cond alerts' = true.
Proof.
  intros Hsub (k & a & Hk & Hc)%exists_alert_true.
  apply exists_alert_true. eauto.
Qed.

Lemma remind_covers (now : Z) alerts row :
  exists_alert (recent_reminder now row) (remind_row now alerts row) = true.
Proof.
  unfold remind.
  destruct (exists_alert (recent_reminder now row) alerts) eqn:Hex; simpl;
    [done|].
  apply exists_alert_true.
  exists (auto_increment alerts), (reminder_alert DATE_FORMAT TIME_FORMAT now row).
  split; [by rewrite lookup_insert_eq|].
  unfold recent_reminder. simpl. rewrite !bool_decide_eq_true_2 by done. simpl.
  apply Z.gtb_lt. lia.
Qed.

Lemma foldl_remind_covers (now : Z) (rows : list reminder_row) alerts row :
  row ∈ rows →
  exists_alert (recent_reminder now row) (foldl (remind_row now) alerts rows) = true.
Proof.
  revert alerts. induction rows as [|row' rows IH]; intros alerts Hin; simpl.
  - by apply elem_of_nil in Hin.
  - apply elem_of_cons in Hin as [->|Hin]; [|by apply IH].
    eapply exists_alert_mono; [|apply remind_covers].
    intros k a. apply foldl_remind_keeps.
Qed.

Lemma foldl_remind_noop (now : Z) (rows : list reminder_row) alerts :
  (∀ row, row ∈ rows → exists_alert (recent_reminder now row) alerts = true) →
  foldl (remind_row now) alerts rows = alerts.
Proof.
  induction rows as [|row rows IH]; intros Hall; simpl; [done|].
  assert (remind_row now alerts row = alerts) as ->.
  { unfold remind. by rewrite Hall by left. }
  apply IH. intros row' Hin. apply Hall. by right.
Qed.

Lemma foldl_remind_new (now : Z) (rows : list reminder_row) alerts (k : Z)
    (a : Alert.row) :
  foldl (remind_row now) alerts rows !! k = Some a →
  alerts !! k = Some a
  ∨ ∃ row, row ∈ rows ∧ a = reminder_alert DATE_FORMAT TIME_FORMAT now row.
Proof.
  revert alerts. induction rows as [|row rows IH]; intros alerts Hk; simpl in *;
    [by left|].
  apply IH in Hk as [Hk|(row' & Hin & ->)].
  - unfold remind in Hk. destruct (negb _); [|by left].
    rewrite lookup_insert in Hk. case_decide; [|by left].
    right. exists row. split; [by left|congruence].
  - right. exists row'. split; [by right|done].
Qed.

Lemma cur_reminders_elem (now : Z) db row :
  row ∈ cur_reminders schedule now db →
  ∃ rid r e,
    tblRegistrations db !! rid = Some r
    ∧ Reg.Status r = Reg.confirmed
    ∧ tblEvents db !! Reg.EventID r = Some e
    ∧ Events.Status e = Events.Published
    ∧ (schedule (Reg.EventID r)).1 = date_in_three_days now
    ∧ v_user_id row = Reg.UserID r
    ∧ v_event_id row = Reg.EventID r.
Proof.
  unfold cur_reminders. intros ([rid r] & Hin & Hrow)%list_elem_of_omap.
  apply elem_of_map_to_list in Hin. simpl in Hrow.
  destruct (tblEvents db !! Reg.EventID r) as [e|] eqn:He; simpl in Hrow; [|done].
  destruct (bool_decide (Reg.Status r = Reg.confirmed)) eqn:H1; [|done].
  destruct (bool_decide (Events.Status e = Events.Published)) eqn:H2; [|done].
  destruct (bool_decide ((schedule (Reg.EventID r)).1 = date_in_three_days now))
    eqn:H3; [|done].
  simpl in Hrow. injection Hrow as <-.
  apply bool_decide_eq_true in H1, H2, H3.
  exists rid, r, e. by repeat split.
Qed.

(** X16.  One run of [GenerateEventReminders] removes and changes no alert;
    every alert it creates is an unread [EventReminder], stamped with the
    time of the run, for a confirmed registration of a published event that
    takes place three days later; afterwards each such registration has a
    reminder; and a second run at the same instant creates nothing. *)
Theorem GenerateEventReminders_once (now : Z) db alerts :
  reminders_shape schedule now db alerts (job now db alerts)
  ∧ job now db (job now db alerts) = job now db alerts.
Proof.
  unfold GenerateEventReminders. split; [split; [|split]|].
  - intros k a. apply foldl_remind_keeps.
  - intros k a Hnone Hsome.
    apply foldl_remind_new in Hsome as [Hsome|(row & Hin & ->)]; [congruence|].
    apply cur_reminders_elem in Hin
      as (rid & r & e & Hr & Hs & He & Hp & Hd & Hu & Hev).
    exists rid, r, e. simpl. rewrite Hu, Hev. by repeat split.
  - intros row. apply foldl_remind_covers.
  - apply foldl_remind_noop. intros row. apply foldl_remind_covers.
Qed.

End reminders_proofs.

(** A run on day 3 creates nothing for the music night of day 10; the run
    of day 7 creates one reminder. *)
Example reminder_three_days_ahead :
  size (GenerateEventReminders (λ _, "Friday, May 15, 2025") (λ _, "07:00 PM")
          music_schedule (3 * 86400 + 3 * 3600) before_music_night ∅) = 0%nat
  ∧ size (GenerateEventReminders (λ _, "Friday, May 15, 2025") (λ _, "07:00 PM")
            music_schedule (7 * 86400 + 3 * 3600) before_music_night ∅) = 1%nat.
Proof. split; by vm_compute. Qed.

(** ** Competition registration *)

(** X17.  For a published event and a request that names an event, a user
    and a registration type, [POST /competitions/api/register] answers 400
    "Registration deadline has passed" exactly when the deadline lies before
    the time of the call, where an event without deadline ([NULL]) counts as
    one whose deadline is the epoch; every other such call ends in the 500
    answer, since the table the handler reads next does not exist.  The
    database is never changed. *)
Theorem competition_register_deadline (now e userId : Z)
    (registrationType : string) (teamId : option Z) (db : database)
    (event : Events.row)
    (Hevent : e ≠ 0) (Huser : userId ≠ 0) (Htype : registrationType ≠ "")
    (He : tblEvents db !! e = Some event)
    (Hpublished : Events.Status event = Events.Published) :
  competition_answers now e userId registrationType teamId db event.
Proof.
  unfold competition_answers, post_competitions_register. simpl.
  rewrite !bool_decide_eq_false_2 by done.
  destruct registrationType as [|c s]; [done|]. simpl.
  unfold published_event. rewrite He. simpl.
  rewrite bool_decide_eq_true_2 by done. unfold new_Date.
  destruct (Events.RegistrationDeadline event) as [d|]; simpl;
    destruct (Z.ltb_spec0 d now) || destruct (Z.ltb_spec0 0 now); simpl;
    (split; [done|split; [split; [done || intros [=]|done || lia]|]]);
    by (left + right).
Qed.

Lemma competition_register_deadline_witness :
  (2 ≠ 0 ∧ 3 ≠ 0 ∧ "Individual" ≠ ""
   ∧ tblEvents no_payments !! 2 = Some music_night
   ∧ Events.Status music_night = Events.Published)
  ∧ competition_answers 200 2 3 "Individual" None no_payments music_night.
Proof.
  split; [by vm_compute|].
  by apply (competition_register_deadline 200 2 3 "Individual" None
              no_payments music_night).
Defined.
